(** * extract-opcodes: the opcode table extractor of scripts/extract-opcodes.py

    The script reads the text of a header file, walks over its lines, matches
    each whitespace-trimmed line against one regular expression and prints one
    tab-separated record per match, numbering the matches from 0.

    Modelling choices.
    - A Python [str] is a [string]; an [ascii] stands for a code point below
      256, classified the way CPython classifies U+0000..U+00FF.
    - [re.match] is a backtracking matcher over a small regular-expression
      syntax tree; the pattern of the script is written in that syntax.
    - Python's unbounded [int] counter is a [nat].
    - [open]/[read] is a lookup in a file system in which the file at the
      path is readable, or cannot be opened, read or decoded.
    - [print] writes to a standard output that takes a line or refuses it
      with an exception; [loop_body], [for_each] and [run] are the script
      on a standard output that takes every line.
    - Exceptions are an explicit outcome. *)

From Stdlib Require Import Strings.String Strings.Ascii Lists.List Arith.Arith
  Arith.PeanoNat Bool.Bool micromega.Lia.
Import ListNotations.
Open Scope list_scope.
Open Scope string_scope.

(** ** Characters *)

Module Chars.

Definition tab : ascii := "009"%char.
Definition newline : ascii := "010"%char.

Definition between (lo hi : nat) (c : ascii) : bool :=
  let n := nat_of_ascii c in Nat.leb lo n && Nat.leb n hi.

Definition is_code (k : nat) (c : ascii) : bool := Nat.eqb (nat_of_ascii c) k.

(** [Py_UNICODE_ISSPACE]: what [str.strip()] removes and what [\s] matches. *)
Definition is_space (c : ascii) : bool :=
  between 9 13 c || between 28 32 c || is_code 133 c || is_code 160 c.

(** [Py_UNICODE_ISDECIMAL]: what [\d] matches. *)
Definition is_digit (c : ascii) : bool := between 48 57 c.

(** [Py_UNICODE_ISALNUM] below 256: ASCII letters and digits, the Latin-1
    letters, and the Latin-1 superscript digits and vulgar fractions. *)
Definition is_alnum (c : ascii) : bool :=
  between 48 57 c || between 65 90 c || between 97 122 c
  || is_code 170 c || is_code 181 c || is_code 186 c
  || between 192 214 c || between 216 246 c || between 248 255 c
  || is_code 178 c || is_code 179 c || is_code 185 c || between 188 190 c.

(** What [\w] matches: alphanumerics and the underscore. *)
Definition is_word (c : ascii) : bool := is_alnum c || is_code 95 c.

End Chars.
Import Chars.

(** ** String operations of the script *)

(** [str.lstrip()] and [str.rstrip()] with no argument. *)
Fixpoint lstrip (s : string) : string :=
  match s with
  | String c s' => if is_space c then lstrip s' else s
  | EmptyString => EmptyString
  end.

Fixpoint rstrip (s : string) : string :=
  match s with
  | EmptyString => EmptyString
  | String c s' =>
      match rstrip s' with
      | EmptyString => if is_space c then EmptyString else String c EmptyString
      | r => String c r
      end
  end.

(** [line.strip()] *)
Definition strip (s : string) : string := rstrip (lstrip s).

(** [s.split(sep)] for a one-character separator: never an empty list, and
    an empty piece for each separator at either end. *)
Fixpoint split (sep : ascii) (s : string) : list string :=
  match s with
  | EmptyString => [EmptyString]
  | String c s' =>
      if Ascii.eqb c sep then EmptyString :: split sep s'
      else match split sep s' with
           | h :: t => String c h :: t
           | [] => [String c EmptyString]
           end
  end.

(** ** Regular expressions *)

Module Re.

Inductive cclass := CSpace | CWord | CDigit.

(** One-character items: a literal character or an escape class. *)
Inductive atom :=
| Lit (c : ascii)
| Class (k : cclass).

(** The fragment of the [re] syntax the script's pattern is written in.
    Repetition applies to one-character items only; a non-capturing group
    [(?:...)] is plain nesting. *)
Inductive regex :=
| Eps
| Atom (a : atom)
| Star (a : atom)             (* a*  greedy *)
| Plus (a : atom)             (* a+  greedy *)
| Opt (a : atom)              (* a?  greedy *)
| Seq (r1 r2 : regex)
| Alt (r1 r2 : regex)         (* r1|r2, left first *)
| Group (r : regex).          (* ( r ), capturing *)

Definition class_ok (k : cclass) (c : ascii) : bool :=
  match k with
  | CSpace => is_space c
  | CWord => is_word c
  | CDigit => is_digit c
  end.

Definition atom_ok (a : atom) (c : ascii) : bool :=
  match a with
  | Lit x => Ascii.eqb x c
  | Class k => class_ok k c
  end.

(** [take n s]: the first [n] characters of [s]. *)
Fixpoint take (n : nat) (s : string) : string :=
  match n, s with
  | S n', String c s' => String c (take n' s')
  | _, _ => EmptyString
  end.

(** The text consumed between the subject suffix [s] and its later suffix
    [s']: what a group that was entered at [s] and left at [s'] captures. *)
Definition consumed (s s' : string) : string :=
  take (String.length s - String.length s') s.

Section Matcher.
Context {R : Type}.

(** Greedy repetition of a one-character item: take as many as there are,
    then give them back one at a time while the rest of the pattern fails. *)
Fixpoint star (a : atom) (s : string) (k : string -> option R) : option R :=
  match s with
  | String c s' =>
      if atom_ok a c then
        match star a s' k with
        | Some r => Some r
        | None => k s
        end
      else k s
  | EmptyString => k s
  end.

(** The backtracking matcher. [s] is what is left of the subject, [caps]
    the groups closed so far in pattern order, [k] the rest of the pattern.
    [None] is a failure that makes the caller try its next alternative. *)
Fixpoint mtch (r : regex) (s : string) (caps : list string)
         (k : string -> list string -> option R) : option R :=
  match r with
  | Eps => k s caps
  | Atom a =>
      match s with
      | String c s' => if atom_ok a c then k s' caps else None
      | EmptyString => None
      end
  | Star a => star a s (fun s' => k s' caps)
  | Plus a =>
      match s with
      | String c s' =>
          if atom_ok a c then star a s' (fun s'' => k s'' caps) else None
      | EmptyString => None
      end
  | Opt a =>
      match s with
      | String c s' =>
          if atom_ok a c then
            match k s' caps with
            | Some r => Some r
            | None => k s caps
            end
          else k s caps
      | EmptyString => k s caps
      end
  | Seq r1 r2 => mtch r1 s caps (fun s' caps' => mtch r2 s' caps' k)
  | Alt r1 r2 =>
      match mtch r1 s caps k with
      | Some r => Some r
      | None => mtch r2 s caps k
      end
  | Group r1 =>
      mtch r1 s caps (fun s' caps' => k s' (caps' ++ [consumed s s'])%list)
  end.
End Matcher.

(** A match object: the groups, and the unmatched tail of the subject. *)
Record match_obj := MatchObj { groups : list string; tail : string }.

(** [re.match(pattern, s)]: the match has to start at the first character of
    [s]; it does not have to reach the end. *)
Definition re_match (r : regex) (s : string) : option match_obj :=
  mtch r s [] (fun s' caps => Some (MatchObj caps s')).

(** A literal string, and a sequence of pattern items. *)
Fixpoint str (s : string) : regex :=
  match s with
  | EmptyString => Eps
  | String c s' => Seq (Atom (Lit c)) (str s')
  end.

Definition seqs (rs : list regex) : regex := fold_right Seq Eps rs.

End Re.
Import Re.

(** ** The script *)


Definition ws : regex := Star (Class CSpace).
Definition chr (c : ascii) : regex := Atom (Lit c).
Definition word : regex := Plus (Class CWord).
Definition digits : regex := Plus (Class CDigit).
Definition sdigits : regex := Seq (Opt (Lit "-")) (Plus (Class CDigit)).

(** [(?:DEF|def)\s*\(\s*(\w+)\s*,\s*(\d+)\s*,\s*(-?\d+)\s*,\s*(-?\d+)\s*,\s*(\w+)] *)
Definition pattern : regex :=
  seqs [ Alt (str "DEF") (str "def"); ws; chr "("; ws;
         Group word; ws; chr ","; ws;
         Group digits; ws; chr ","; ws;
         Group sdigits; ws; chr ","; ws;
         Group sdigits; ws; chr ","; ws;
         Group word ].

(** *** Number formatting *)

Definition digit_char (d : nat) : ascii :=
  match String.get d "0123456789ABCDEF" with
  | Some c => c
  | None => "?"%char
  end.

(** The digits of [n] in base [b], most significant first, in front of
    [acc]; at least one digit. *)
Fixpoint to_base_aux (fuel b n : nat) (acc : string) : string :=
  match fuel with
  | 0 => acc
  | S fuel' =>
      let acc' := String (digit_char (n mod b)) acc in
      if Nat.eqb (n / b) 0 then acc' else to_base_aux fuel' b (n / b) acc'
  end.

Definition to_base (b n : nat) : string := to_base_aux (S n) b n EmptyString.

Fixpoint replicate (n : nat) (c : ascii) : string :=
  match n with
  | 0 => EmptyString
  | S n' => String c (replicate n' c)
  end.

(** Zero padding on the left up to a minimum width. *)
Definition zero_pad (width : nat) (s : string) : string :=
  replicate (width - String.length s) "0"%char ++ s.

(** [{idx}] *)
Definition format_d (n : nat) : string := to_base 10 n.

(** [{idx:02X}] *)
Definition format_02X (n : nat) : string := zero_pad 2 (to_base 16 n).

Definition TAB : string := String tab EmptyString.

(** The f-string of the [print] call. *)
Definition format_record (idx : nat) (name size npop npush fmt : string)
  : string :=
  format_d idx ++ TAB ++ "0x" ++ format_02X idx ++ TAB ++ "OP_" ++ name
  ++ TAB ++ "size=" ++ size ++ TAB ++ "pop=" ++ npop
  ++ TAB ++ "push=" ++ npush ++ TAB ++ "fmt=" ++ fmt.

(** *** The loop *)

Inductive exn :=
| OSError
| UnicodeDecodeError
| ValueError
| UnicodeEncodeError
| BrokenPipeError.

(** The counter and the lines printed so far. *)
Record state := State { idx : nat; stdout : list string }.

Inductive outcome :=
| Finished (st : state)
| Raised (e : exn) (st : state).

Definition final (o : outcome) : state :=
  match o with
  | Finished st => st
  | Raised _ st => st
  end.


(** Sequencing that stops at the first exception. *)
Definition bind (o : outcome) (f : state -> outcome) : outcome :=
  match o with
  | Finished st => f st
  | Raised e st => Raised e st
  end.

(** Standard output as [print] sees it: given the lines written so far and
    the next line, it takes the line or raises (an encoding that cannot
    represent the text, a closed pipe). *)
Definition sink := list string -> string -> option exn.

(** A standard output that takes every line. *)
Definition accept_all : sink := fun _ _ => None.

(** One iteration of the [for] loop. Unpacking [m.groups()] into five names
    raises [ValueError] when there are not five of them; [print] raises what
    standard output raises, before the counter is advanced. *)
Definition loop_body_on (out : sink) (line : string) (st : state) : outcome :=
  let line := strip line in
  match re_match pattern line with
  | Some m =>
      match groups m with
      | [name; size; npop; npush; fmt] =>
          let r := format_record (idx st) name size npop npush fmt in
          match out (stdout st) r with
          | None => Finished (State (S (idx st)) (stdout st ++ [r])%list)
          | Some e => Raised e st
          end
      | _ => Raised ValueError st
      end
  | None => Finished st
  end.

Fixpoint for_each_on (out : sink) (lines : list string) (st : state)
  : outcome :=
  match lines with
  | [] => Finished st
  | line :: rest => bind (loop_body_on out line st) (for_each_on out rest)
  end.

(** The iteration and the loop on a standard output that takes every
    line. *)
Definition loop_body : string -> state -> outcome := loop_body_on accept_all.

Definition for_each : list string -> state -> outcome :=
  for_each_on accept_all.





Definition initial : state := State 0 [].


(** The script from the point where [f.read()] has returned [text], on a
    standard output that takes every line. *)
Definition run (text : string) : outcome :=
  for_each (split newline text) initial.

Definition output (text : string) : list string := stdout (final (run text)).

(** The [n]-th tab-separated field of a printed line. *)
Definition field (n : nat) (line : string) : string :=
  nth n (split tab line) EmptyString.

(** ** The pattern as a scanner

    The pattern never has to give a character back: each repetition is
    followed by something its characters cannot start. [scan] reads the line
    once, left to right, taking the longest run at each repetition. *)

Module Scan.

(** The rest of [s] after its longest prefix of [a]-characters, and that
    prefix. *)
Fixpoint skip (a : atom) (s : string) : string :=
  match s with
  | String c s' => if atom_ok a c then skip a s' else s
  | EmptyString => EmptyString
  end.

Fixpoint run_of (a : atom) (s : string) : string :=
  match s with
  | String c s' => if atom_ok a c then String c (run_of a s') else EmptyString
  | EmptyString => EmptyString
  end.

(** [s] without the literal [p] at its front. *)
Fixpoint lit_prefix (p s : string) : option string :=
  match p with
  | EmptyString => Some s
  | String c p' =>
      match s with
      | String x s' => if Ascii.eqb c x then lit_prefix p' s' else None
      | EmptyString => None
      end
  end.

Definition expect (c : ascii) (s : string) : option string :=
  lit_prefix (String c EmptyString) s.

Definition token (s : string) : option string :=
  match lit_prefix "DEF" s with
  | Some t => Some t
  | None => lit_prefix "def" s
  end.

(** One or more [a]-characters. *)
Definition some_of (a : atom) (s : string) : option (string * string) :=
  match s with
  | String c s' =>
      if atom_ok a c then Some (String c (run_of a s'), skip a s') else None
  | EmptyString => None
  end.

Definition blanks : string -> string := skip (Class CSpace).
Definition ident : string -> option (string * string) := some_of (Class CWord).
Definition number : string -> option (string * string) :=
  some_of (Class CDigit).

Definition snumber (s : string) : option (string * string) :=
  match s with
  | String c s' =>
      if Ascii.eqb "-" c then
        match number s' with
        | Some (n, t) => Some (String c n, t)
        | None => None
        end
      else number s
  | EmptyString => None
  end.

Definition obind {A B : Type} (o : option A) (f : A -> option B) : option B :=
  match o with
  | Some a => f a
  | None => None
  end.

Notation "'let?' x := o 'in' k" := (obind o (fun x => k))
  (at level 10, x pattern, o at level 100, k at level 200).
Notation "'let?' ' x := o 'in' k" := (obind o (fun x => k))
  (at level 10, x strict pattern, o at level 100, k at level 200).

(** The fields after the name and its comma, last one first. *)
Definition scan_fmt (name size npop npush s : string) : option match_obj :=
  let? '(fmt, s) := ident (blanks s) in
  Some (MatchObj [name; size; npop; npush; fmt] s).

Definition scan_push (name size npop s : string) : option match_obj :=
  let? '(npush, s) := snumber (blanks s) in
  let? s := expect "," (blanks s) in
  scan_fmt name size npop npush s.

Definition scan_pop (name size s : string) : option match_obj :=
  let? '(npop, s) := snumber (blanks s) in
  let? s := expect "," (blanks s) in
  scan_push name size npop s.

Definition scan_fields (name s : string) : option match_obj :=
  let? '(size, s) := number (blanks s) in
  let? s := expect "," (blanks s) in
  scan_pop name size s.

Definition scan (s : string) : option match_obj :=
  let? s := token s in
  let? s := expect "(" (blanks s) in
  let? '(name, s) := ident (blanks s) in
  let? s := expect "," (blanks s) in
  scan_fields name s.

(** [r] cannot start with the character [c]. *)
Definition rejects {R : Type} (r : regex) (c : ascii) : Prop :=
  forall s caps (k : string -> list string -> option R),
    mtch r (String c s) caps k = None.

End Scan.
Import Scan.

(** ** The grammar in the words of the specification

    A trimmed line matches when it has the shape
    [<macro-token> ( <identifier> , <integer> , <signed-integer> ,
     <signed-integer> , <identifier> ...rest], with optional white space
    between the tokens. *)

Module Grammar.

Fixpoint all (p : ascii -> bool) (s : string) : bool :=
  match s with
  | EmptyString => true
  | String c s' => p c && all p s'
  end.

Definition blank (w : string) : Prop := all is_space w = true.

(** A bare word: letters, digits, underscore. *)
Definition identifier (s : string) : Prop :=
  s <> EmptyString /\ all is_word s = true.

(** An unsigned decimal literal. *)
Definition integer (s : string) : Prop :=
  s <> EmptyString /\ all is_digit s = true.

(** A decimal literal with an optional minus sign in front. *)
Definition signed_integer (s : string) : Prop :=
  integer s \/ exists d, s = String "-" d /\ integer d.

Definition macro_token (s : string) : Prop := s = "DEF" \/ s = "def".

(** The white space around the tokens of one line. *)
Record spacing := Spacing {
  w1 : string; w2 : string; w3 : string; w4 : string; w5 : string;
  w6 : string; w7 : string; w8 : string; w9 : string; w10 : string }.

Definition blank_spacing (w : spacing) : Prop :=
  blank (w1 w) /\ blank (w2 w) /\ blank (w3 w) /\ blank (w4 w)
  /\ blank (w5 w) /\ blank (w6 w) /\ blank (w7 w) /\ blank (w8 w)
  /\ blank (w9 w) /\ blank (w10 w).

(** The text of a line with the given token, spacing, fields and rest. *)
Definition shape (tok : string) (w : spacing)
           (name size npop npush fmt rest : string) : string :=
  tok ++ w1 w ++ "(" ++ w2 w ++ name ++ w3 w ++ "," ++ w4 w ++ size
  ++ w5 w ++ "," ++ w6 w ++ npop ++ w7 w ++ "," ++ w8 w ++ npush
  ++ w9 w ++ "," ++ w10 w ++ fmt ++ rest.

Definition well_formed (tok : string) (w : spacing)
           (name size npop npush fmt : string) : Prop :=
  macro_token tok /\ blank_spacing w /\ identifier name /\ integer size
  /\ signed_integer npop /\ signed_integer npush /\ identifier fmt.

Definition conforms (s : string) : Prop :=
  exists tok w name size npop npush fmt rest,
    well_formed tok w name size npop npush fmt
    /\ s = shape tok w name size npop npush fmt rest.

(** [s] does not start with a character of the class [p]. *)
Definition no_head (p : ascii -> bool) (s : string) : Prop :=
  match s with
  | String c _ => p c = false
  | EmptyString => True
  end.

(** The rest of a line does not go on with a word character. *)
Definition no_word_head : string -> Prop := no_head is_word.

End Grammar.
Import Grammar.

(** ** Reading the output back *)

Module Readback.

(** The value of a digit character, upper-case hexadecimal included. *)
Definition digit_value (c : ascii) : option nat :=
  let n := nat_of_ascii c in
  if between 48 57 c then Some (n - 48)
  else if between 65 70 c then Some (n - 55)
  else None.

(** The number a digit string denotes in base [b], most significant digit
    first, continuing from [acc]. *)
Fixpoint of_base_acc (b : nat) (s : string) (acc : nat) : option nat :=
  match s with
  | EmptyString => Some acc
  | String c s' =>
      match digit_value c with
      | Some d => if Nat.ltb d b then of_base_acc b s' (acc * b + d) else None
      | None => None
      end
  end.

Definition of_base (b : nat) (s : string) : option nat :=
  match s with
  | EmptyString => None
  | _ => of_base_acc b s 0
  end.

(** The two hexadecimal digits of a number below 256. *)
Definition two_hex_digits (i : nat) : string :=
  String (digit_char (i / 16)) (String (digit_char (i mod 16)) "").

(** Digits and the capital letters A to F. *)
Definition is_upper_hex (c : ascii) : bool := between 48 57 c || between 65 70 c.

Definition not_tab (c : ascii) : bool := negb (Ascii.eqb c tab).

(** Does the loop print a record for this line? *)
Definition matches (line : string) : bool :=
  match re_match pattern (strip line) with
  | Some _ => true
  | None => false
  end.

(** The fields the pattern captures in a line, when it matches. *)
Definition captures (line : string) : option (list string) :=
  option_map groups (re_match pattern (strip line)).

(** The record the loop prints for a matching line when the counter is
    [i]. *)
Definition record_of (i : nat) (line : string) : string :=
  match captures line with
  | Some [name; size; npop; npush; fmt] =>
      format_record i name size npop npush fmt
  | _ => EmptyString
  end.

(** The records of the given lines, numbered from [i]. *)
Definition numbered (i : nat) (ls : list string) : list string :=
  map (fun p => record_of (fst p) (snd p))
      (combine (seq i (List.length ls)) ls).

(** How many times [c] occurs in [s]. *)
Fixpoint count (c : ascii) (s : string) : nat :=
  match s with
  | EmptyString => 0
  | String x s' => (if Ascii.eqb x c then 1 else 0) + count c s'
  end.

End Readback.
Import Readback.

(** ** Kinds of lines and the scenarios of the specification *)

Module Lines.

Definition scenario_A_line : string := "DEF(push_i32, 5, 0, 1, i32)".

Definition scenario_A_record : string :=
  "0" ++ TAB ++ "0x00" ++ TAB ++ "OP_push_i32" ++ TAB ++ "size=5"
  ++ TAB ++ "pop=0" ++ TAB ++ "push=1" ++ TAB ++ "fmt=i32".

(** A line of the header with [n] as the name and as the format. *)
Definition valid_line (n : nat) : string :=
  "DEF(op" ++ format_d n ++ ", 1, 0, 1, f" ++ format_d n ++ ")".

(** [n] valid lines, each followed by a line feed. *)
Fixpoint valid_lines (n : nat) : string :=
  match n with
  | 0 => EmptyString
  | S n' => valid_lines n' ++ valid_line n' ++ String newline EmptyString
  end.

(** A line up to and including the comma after the name. *)
Definition header (tok v1 v2 name v3 : string) : string :=
  tok ++ v1 ++ "(" ++ v2 ++ name ++ v3 ++ ",".

Definition header_ok (tok v1 v2 name v3 : string) : Prop :=
  macro_token tok /\ blank v1 /\ blank v2 /\ identifier name /\ blank v3.

(** Nothing but white space. *)
Definition empty_line (line : string) : Prop := strip line = EmptyString.

(** A line that opens with a C comment marker. *)
Definition comment_line (line : string) : Prop :=
  exists t, strip line = "//" ++ t \/ strip line = "/*" ++ t.

(** Four or fewer comma-separated arguments: at most three commas. *)
Definition few_arguments (line : string) : Prop := count "," line < 4.

(** The line up to the comma after the name, after the size, after the pop
    count. *)
Definition upto_name (p name : string) : Prop :=
  exists tok v1 v2 v3,
    header_ok tok v1 v2 name v3 /\ p = header tok v1 v2 name v3.

Definition upto_size (p name size : string) : Prop :=
  exists p1 v4 v5,
    upto_name p1 name /\ blank v4 /\ integer size /\ blank v5
    /\ p = p1 ++ v4 ++ size ++ v5 ++ ",".

Definition upto_pop (p name size npop : string) : Prop :=
  exists p2 v6 v7,
    upto_size p2 name size /\ blank v6 /\ signed_integer npop /\ blank v7
    /\ p = p2 ++ v6 ++ npop ++ v7 ++ ",".

(** [s] goes on with a literal of the kind [lit] and a comma. *)
Definition literal_then_comma (lit : string -> Prop) (s : string) : Prop :=
  exists v n v' rest,
    blank v /\ lit n /\ blank v' /\ s = v ++ n ++ v' ++ "," ++ rest.

(** What stands where the size, the pop count or the push count belongs is
    not a decimal literal of the expected kind followed by a comma. *)
Definition malformed_integer (line : string) : Prop :=
  (exists p name after,
      upto_name p name /\ strip line = p ++ after
      /\ ~ literal_then_comma integer after)
  \/ (exists p name size after,
         upto_size p name size /\ strip line = p ++ after
         /\ ~ literal_then_comma signed_integer after)
  \/ (exists p name size npop after,
         upto_pop p name size npop /\ strip line = p ++ after
         /\ ~ literal_then_comma signed_integer after).

(** The size is written with a leading minus sign. *)
Definition negative_size (line : string) : Prop :=
  exists p name v4 d rest,
    upto_name p name /\ blank v4 /\ integer d
    /\ strip line = p ++ v4 ++ "-" ++ d ++ rest.

Definition to_lower (c : ascii) : ascii :=
  if between 65 90 c then ascii_of_nat (nat_of_ascii c + 32) else c.

Fixpoint lower (s : string) : string :=
  match s with
  | EmptyString => EmptyString
  | String c s' => String (to_lower c) (lower s')
  end.

(** [Def], [DeF] and the like: the letters of the token in a mix of
    cases. *)
Definition mixed_case_token (tok : string) : Prop :=
  lower tok = "def" /\ tok <> "DEF" /\ tok <> "def".

End Lines.
Import Lines.

(** ** Vocabulary for the properties of the text operations *)

Module Text.

(** The pieces put back together with the separator between them: the
    inverse of [split]. *)
Fixpoint join (sep : ascii) (ls : list string) : string :=
  match ls with
  | [] => EmptyString
  | [a] => a
  | a :: rest => a ++ String sep (join sep rest)
  end.

Definition not_char (c x : ascii) : bool := negb (Ascii.eqb x c).

(** Does [s] end with a character of the class [p]? *)
Fixpoint ends_with (p : ascii -> bool) (s : string) : bool :=
  match s with
  | EmptyString => false
  | String c EmptyString => p c
  | String _ s' => ends_with p s'
  end.

End Text.
Import Text.

(** ** The text after the token, and standard outputs *)

Module Run.

(** The five fields and the white space between them are well formed. *)
Definition well_formed_fields (w : spacing)
           (name size npop npush fmt : string) : Prop :=
  blank_spacing w /\ identifier name /\ integer size
  /\ signed_integer npop /\ signed_integer npush /\ identifier fmt.

(** The text of a line after its token. *)
Definition fields_text (w : spacing)
           (name size npop npush fmt rest : string) : string :=
  w1 w ++ "(" ++ w2 w ++ name ++ w3 w ++ "," ++ w4 w ++ size
  ++ w5 w ++ "," ++ w6 w ++ npop ++ w7 w ++ "," ++ w8 w ++ npush
  ++ w9 w ++ "," ++ w10 w ++ fmt ++ rest.




End Run.
Import Run.

(** * Properties *)

(** ** Characters *)

Ltac by_cases_on_char c :=
  destruct c as [[|] [|] [|] [|] [|] [|] [|] [|]];
  try reflexivity; try discriminate.

Lemma word_not_space (c : ascii) : is_word c = true -> is_space c = false.
Proof. by_cases_on_char c. Qed.

Lemma space_not_word (c : ascii) : is_space c = true -> is_word c = false.
Proof. by_cases_on_char c. Qed.

Lemma digit_is_word (c : ascii) : is_digit c = true -> is_word c = true.
Proof. by_cases_on_char c. Qed.

Lemma digit_not_space (c : ascii) : is_digit c = true -> is_space c = false.
Proof. by_cases_on_char c. Qed.

Lemma word_not_tab (c : ascii) : is_word c = true -> c <> tab.
Proof. intros H ->. discriminate H. Qed.

(** ** Strings *)

Lemma app_assoc_s (a b c : string) : (a ++ b) ++ c = a ++ b ++ c.
Proof. induction a as [|x a IH]; simpl; [reflexivity | now rewrite IH]. Qed.

Lemma app_nil_r_s (a : string) : a ++ "" = a.
Proof. induction a as [|x a IH]; simpl; [reflexivity | now rewrite IH]. Qed.

Lemma length_app_s (a b : string) :
  String.length (a ++ b) = String.length a + String.length b.
Proof. induction a as [|x a IH]; simpl; [reflexivity | now rewrite IH]. Qed.

Lemma take_app (p t : string) : take (String.length p) (p ++ t) = p.
Proof. induction p as [|x p IH]; simpl; [now destruct t | now rewrite IH]. Qed.

Lemma consumed_app (p t : string) : consumed (p ++ t) t = p.
Proof.
  unfold consumed. rewrite length_app_s.
  replace (String.length p + String.length t - String.length t)
    with (String.length p) by lia.
  apply take_app.
Qed.

Lemma lstrip_nonspace (c : ascii) (s : string) :
  is_space c = false -> lstrip (String c s) = String c s.
Proof. intros H. simpl. now rewrite H. Qed.

Lemma rstrip_nonspace (c : ascii) (s : string) :
  is_space c = false -> rstrip (String c s) = String c (rstrip s).
Proof. intros H. simpl. rewrite H. now destruct (rstrip s). Qed.

Lemma lstrip_head (s : string) (c : ascii) (r : string) :
  lstrip s = String c r -> is_space c = false.
Proof.
  induction s as [|x s IH]; simpl; [discriminate|].
  destruct (is_space x) eqn:E; [exact IH|].
  intros H. injection H as -> _. exact E.
Qed.

Lemma rstrip_head (s : string) (c : ascii) (r : string) :
  rstrip s = String c r -> exists s', s = String c s'.
Proof.
  destruct s as [|x s]; simpl; [discriminate|].
  destruct (rstrip s); [destruct (is_space x); [discriminate|]|];
    intros H; injection H as -> _; now exists s.
Qed.

(** A trimmed line is empty or starts with a character that is not white
    space. *)
Lemma strip_head (s : string) (c : ascii) (r : string) :
  strip s = String c r -> is_space c = false.
Proof.
  unfold strip. intros H.
  destruct (rstrip_head _ _ _ H) as [s' E].
  exact (lstrip_head _ _ _ E).
Qed.

Lemma strip_nonspace (c : ascii) (s : string) :
  is_space c = false -> strip (String c s) = String c (rstrip s).
Proof.
  intros H. unfold strip. rewrite (lstrip_nonspace _ _ H).
  now apply rstrip_nonspace.
Qed.

(** ** The matcher on the pieces of the pattern *)

Lemma run_skip (a : atom) (s : string) : run_of a s ++ skip a s = s.
Proof.
  induction s as [|c s IH]; simpl; [reflexivity|].
  destruct (atom_ok a c); simpl; [now rewrite IH | reflexivity].
Qed.

Lemma consumed_prefix (a : atom) (p s : string) :
  consumed (p ++ s) (skip a s) = p ++ run_of a s.
Proof.
  rewrite <- (run_skip a s) at 1. rewrite <- app_assoc_s.
  apply consumed_app.
Qed.

Lemma consumed_skip (a : atom) (c : ascii) (s : string) :
  consumed (String c s) (skip a s) = String c (run_of a s).
Proof. exact (consumed_prefix a (String c "") s). Qed.

Lemma consumed_skip2 (a : atom) (c d : ascii) (s : string) :
  consumed (String c (String d s)) (skip a s)
  = String c (String d (run_of a s)).
Proof. exact (consumed_prefix a (String c (String d "")) s). Qed.

Lemma skip_head (a : atom) (s : string) (c : ascii) (t : string) :
  skip a s = String c t -> atom_ok a c = false.
Proof.
  induction s as [|x s IH]; simpl; [discriminate|].
  destruct (atom_ok a x) eqn:E; [exact IH|].
  intros H. injection H as -> _. exact E.
Qed.

Lemma run_of_all (a : atom) (s : string) : all (atom_ok a) (run_of a s) = true.
Proof.
  induction s as [|c s IH]; simpl; [reflexivity|].
  destruct (atom_ok a c) eqn:E; simpl; [now rewrite E | reflexivity].
Qed.

Section MatcherFacts.
Context {R : Type}.
Implicit Types (k : string -> list string -> option R) (r : regex).

Lemma star_commit (a : atom) (s : string) (k : string -> option R) :
  (forall c s', atom_ok a c = true -> k (String c s') = None) ->
  star a s k = k (skip a s).
Proof.
  intros Hk. induction s as [|c s IH]; simpl; [reflexivity|].
  destruct (atom_ok a c) eqn:E; [|reflexivity].
  rewrite IH. destruct (k (skip a s)); [reflexivity|].
  now apply Hk.
Qed.

Lemma star_greedy (a : atom) (s : string) (k : string -> option R) :
  k (skip a s) <> None -> star a s k = k (skip a s).
Proof.
  intros Hk. induction s as [|c s IH]; simpl in *; [reflexivity|].
  destruct (atom_ok a c) eqn:E; [|reflexivity].
  rewrite (IH Hk). destruct (k (skip a s)); [reflexivity | now elim Hk].
Qed.

Lemma mtch_str (p s : string) caps k :
  mtch (str p) s caps k =
  match lit_prefix p s with
  | Some s' => k s' caps
  | None => None
  end.
Proof.
  revert s. induction p as [|c p IH]; intros s; simpl; [reflexivity|].
  destruct s as [|x s]; [reflexivity|].
  destruct (Ascii.eqb c x); [apply IH | reflexivity].
Qed.

Lemma seq_token r (s : string) caps k :
  mtch (Seq (Alt (str "DEF") (str "def")) r) s caps k =
  match token s with
  | Some s' => mtch r s' caps k
  | None => None
  end.
Proof.
  cbn [mtch]. rewrite !mtch_str. unfold token.
  destruct (lit_prefix "DEF" s) as [t|] eqn:E1; [|reflexivity].
  destruct (mtch r t caps k); [reflexivity|].
  destruct s as [|x s]; [discriminate|].
  cbn [lit_prefix] in E1 |- *.
  destruct (Ascii.eqb_spec "D" x) as [<-|]; [reflexivity | discriminate].
Qed.

Lemma seq_chr (x : ascii) r (s : string) caps k :
  mtch (Seq (chr x) r) s caps k =
  match expect x s with
  | Some s' => mtch r s' caps k
  | None => None
  end.
Proof.
  unfold expect. destruct s as [|c s]; simpl; [reflexivity|].
  now destruct (Ascii.eqb x c).
Qed.

Lemma seq_ws r (s : string) caps k :
  (forall c, is_space c = true -> rejects (R:=R) r c) ->
  mtch (Seq ws r) s caps k = mtch r (blanks s) caps k.
Proof.
  intros Hr. cbn [mtch ws].
  apply (star_commit (Class CSpace) s (fun s' => mtch r s' caps k)).
  intros c s' Hc. now apply Hr.
Qed.

Lemma seq_group_plus (a : atom) r (s : string) caps k :
  (forall c, atom_ok a c = true -> rejects (R:=R) r c) ->
  mtch (Seq (Group (Plus a)) r) s caps k =
  match some_of a s with
  | Some (n, s') => mtch r s' (caps ++ [n])%list k
  | None => None
  end.
Proof.
  intros Hr. cbn [mtch]. unfold some_of.
  destruct s as [|c s]; [reflexivity|].
  destruct (atom_ok a c) eqn:E; [|reflexivity].
  rewrite star_commit; [now rewrite consumed_skip|].
  intros c' s' Hc'. now apply Hr.
Qed.

Lemma seq_group_sdigits r (s : string) caps k :
  (forall c, is_digit c = true -> rejects (R:=R) r c) ->
  mtch (Seq (Group sdigits) r) s caps k =
  match snumber s with
  | Some (n, s') => mtch r s' (caps ++ [n])%list k
  | None => None
  end.
Proof.
  intros Hr. cbn [mtch sdigits]. unfold snumber, number, some_of.
  destruct s as [|c s]; [reflexivity|].
  cbn [atom_ok class_ok].
  destruct (Ascii.eqb_spec "-" c) as [<-|Hc].
  - destruct s as [|d s]; [reflexivity|].
    cbn [atom_ok class_ok].
    destruct (is_digit d) eqn:E; [|reflexivity].
    rewrite star_commit.
    + rewrite consumed_skip2. now destruct (mtch r _ _ k).
    + intros c' s' Hc'. now apply Hr.
  - destruct (is_digit c) eqn:E; [|reflexivity].
    rewrite star_commit; [now rewrite consumed_skip|].
    intros c' s' Hc'. now apply Hr.
Qed.

(** The last group: whatever follows it, the longest run is taken. *)
Lemma last_group_plus (a : atom) (s : string) caps k :
  (forall s' caps', k s' caps' <> None) ->
  mtch (Seq (Group (Plus a)) Eps) s caps k =
  match some_of a s with
  | Some (n, s') => k s' (caps ++ [n])%list
  | None => None
  end.
Proof.
  intros Hk. cbn [mtch]. unfold some_of.
  destruct s as [|c s]; [reflexivity|].
  destruct (atom_ok a c) eqn:E; [|reflexivity].
  rewrite star_greedy; [now rewrite consumed_skip | apply Hk].
Qed.

Lemma rejects_chr (x c : ascii) r :
  x <> c -> rejects (R:=R) (Seq (chr x) r) c.
Proof.
  intros Hx s caps k. simpl.
  destruct (Ascii.eqb_spec x c); [contradiction | reflexivity].
Qed.

Lemma rejects_ws_chr (x c : ascii) r :
  is_space c = false -> x <> c -> rejects (R:=R) (Seq ws (Seq (chr x) r)) c.
Proof.
  intros Hs Hx s caps k. simpl. rewrite Hs.
  destruct (Ascii.eqb_spec x c); [contradiction | reflexivity].
Qed.

Lemma rejects_group_plus (a : atom) (c : ascii) r :
  atom_ok a c = false -> rejects (R:=R) (Seq (Group (Plus a)) r) c.
Proof. intros Ha s caps k. simpl. now rewrite Ha. Qed.

Lemma rejects_group_sdigits (c : ascii) r :
  "-"%char <> c -> is_digit c = false ->
  rejects (R:=R) (Seq (Group sdigits) r) c.
Proof.
  intros Hm Hd s caps k. cbn [mtch sdigits atom_ok class_ok].
  destruct (Ascii.eqb_spec "-" c); [contradiction|].
  now rewrite Hd.
Qed.

End MatcherFacts.

Lemma space_not_digit (c : ascii) : is_space c = true -> is_digit c = false.
Proof. by_cases_on_char c. Qed.

(** ** The matcher and the scanner agree on the pattern *)

Ltac char_differs :=
  let H := fresh in
  intros H; rewrite <- H in *; discriminate.

Ltac after_blanks :=
  let c := fresh "c" in
  let Hc := fresh "Hc" in
  intros c Hc;
  first
    [ apply rejects_chr; char_differs
    | apply rejects_group_plus; cbn [atom_ok class_ok];
      first [ now apply space_not_word | now apply space_not_digit ]
    | apply rejects_group_sdigits;
      [ char_differs | now apply space_not_digit ] ].

Ltac after_field :=
  let c := fresh "c" in
  let Hc := fresh "Hc" in
  intros c Hc; cbn [atom_ok class_ok] in Hc;
  apply rejects_ws_chr;
  [ first [ now apply word_not_space | now apply digit_not_space ]
  | char_differs ].

Theorem re_match_scan (s : string) : re_match pattern s = scan s.
Proof.
  unfold re_match, pattern, seqs, scan, scan_fields, scan_pop, scan_push,
    scan_fmt, ident, number, word, digits.
  cbn [fold_right].
  rewrite seq_token.
  destruct (token s) as [s1|]; [|reflexivity]. cbn [obind].
  rewrite seq_ws by after_blanks. rewrite seq_chr.
  destruct (expect "(" (blanks s1)) as [s2|]; [|reflexivity]. cbn [obind].
  rewrite seq_ws by after_blanks. rewrite seq_group_plus by after_field.
  destruct (some_of (Class CWord) (blanks s2)) as [[name s3]|];
    [|reflexivity]. cbn [obind].
  rewrite seq_ws by after_blanks. rewrite seq_chr.
  destruct (expect "," (blanks s3)) as [s4|]; [|reflexivity]. cbn [obind].
  rewrite seq_ws by after_blanks. rewrite seq_group_plus by after_field.
  destruct (some_of (Class CDigit) (blanks s4)) as [[size s5]|];
    [|reflexivity]. cbn [obind].
  rewrite seq_ws by after_blanks. rewrite seq_chr.
  destruct (expect "," (blanks s5)) as [s6|]; [|reflexivity]. cbn [obind].
  rewrite seq_ws by after_blanks. rewrite seq_group_sdigits by after_field.
  destruct (snumber (blanks s6)) as [[npop s7]|]; [|reflexivity]. cbn [obind].
  rewrite seq_ws by after_blanks. rewrite seq_chr.
  destruct (expect "," (blanks s7)) as [s8|]; [|reflexivity]. cbn [obind].
  rewrite seq_ws by after_blanks. rewrite seq_group_sdigits by after_field.
  destruct (snumber (blanks s8)) as [[npush s9]|]; [|reflexivity]. cbn [obind].
  rewrite seq_ws by after_blanks. rewrite seq_chr.
  destruct (expect "," (blanks s9)) as [s10|]; [|reflexivity]. cbn [obind].
  rewrite seq_ws by after_blanks.
  rewrite last_group_plus by discriminate.
  destruct (some_of (Class CWord) (blanks s10)) as [[fmt s11]|];
    reflexivity.
Qed.

(** ** What the scanner steps accept *)

Lemma lit_prefix_app (p t : string) : lit_prefix p (p ++ t) = Some t.
Proof.
  induction p as [|c p IH]; simpl; [reflexivity|].
  now rewrite Ascii.eqb_refl.
Qed.

Lemma lit_prefix_inv (p s t : string) : lit_prefix p s = Some t -> s = p ++ t.
Proof.
  revert s. induction p as [|c p IH]; intros s; simpl.
  - now intros [= ->].
  - destruct s as [|x s]; [discriminate|].
    destruct (Ascii.eqb_spec c x) as [<-|]; [|discriminate].
    intros H. now rewrite (IH _ H).
Qed.

Lemma token_inv (s t : string) :
  token s = Some t -> exists tok, macro_token tok /\ s = tok ++ t.
Proof.
  unfold token. destruct (lit_prefix "DEF" s) as [u|] eqn:E.
  - intros [= <-]. exists "DEF". split; [now left | now apply lit_prefix_inv].
  - intros H. exists "def". split; [now right | now apply lit_prefix_inv].
Qed.

Lemma token_app (tok t : string) :
  macro_token tok -> token (tok ++ t) = Some t.
Proof. intros [-> | ->]; reflexivity. Qed.

Lemma expect_inv (c : ascii) (s t : string) :
  expect c s = Some t -> s = String c t.
Proof. intros H. exact (lit_prefix_inv _ _ _ H). Qed.

Lemma expect_head (c : ascii) (t : string) : expect c (String c t) = Some t.
Proof. exact (lit_prefix_app (String c "") t). Qed.

Lemma expect_lit (c : ascii) (t : string) :
  expect c (String c "" ++ t) = Some t.
Proof. exact (expect_head c t). Qed.

Lemma blanks_split (s : string) : exists w, blank w /\ s = w ++ blanks s.
Proof.
  exists (run_of (Class CSpace) s). split.
  - exact (run_of_all (Class CSpace) s).
  - symmetry. apply run_skip.
Qed.

Lemma skip_app (a : atom) (w t : string) :
  all (atom_ok a) w = true -> no_head (atom_ok a) t -> skip a (w ++ t) = t.
Proof.
  intros Hw Ht. induction w as [|c w IH]; simpl in *.
  - destruct t as [|x t]; [reflexivity|]. simpl in *. now rewrite Ht.
  - apply andb_prop in Hw as [Hc Hw]. rewrite Hc. now apply IH.
Qed.

Lemma run_of_app (a : atom) (w t : string) :
  all (atom_ok a) w = true -> no_head (atom_ok a) t -> run_of a (w ++ t) = w.
Proof.
  intros Hw Ht. induction w as [|c w IH]; simpl in *.
  - destruct t as [|x t]; [reflexivity|]. simpl in *. now rewrite Ht.
  - apply andb_prop in Hw as [Hc Hw]. rewrite Hc. now rewrite IH.
Qed.

Lemma blanks_app (w t : string) :
  blank w -> no_head is_space t -> blanks (w ++ t) = t.
Proof. exact (skip_app (Class CSpace) w t). Qed.

Lemma skip_no_head (a : atom) (s : string) : no_head (atom_ok a) (skip a s).
Proof.
  destruct (skip a s) as [|c t] eqn:E; [exact I|].
  exact (skip_head _ _ _ _ E).
Qed.

Lemma some_of_inv (a : atom) (s n t : string) :
  some_of a s = Some (n, t) ->
  s = n ++ t /\ n <> "" /\ all (atom_ok a) n = true
  /\ no_head (atom_ok a) t.
Proof.
  unfold some_of. destruct s as [|c s]; [discriminate|].
  destruct (atom_ok a c) eqn:E; [|discriminate].
  intros [= <- <-]. repeat split.
  - simpl. now rewrite run_skip.
  - discriminate.
  - simpl. rewrite E. apply run_of_all.
  - apply skip_no_head.
Qed.

Lemma some_of_app (a : atom) (n t : string) :
  n <> "" -> all (atom_ok a) n = true -> no_head (atom_ok a) t ->
  some_of a (n ++ t) = Some (n, t).
Proof.
  intros Hn Ha Ht. destruct n as [|c n]; [contradiction|].
  simpl in *. apply andb_prop in Ha as [Hc Ha]. rewrite Hc.
  now rewrite run_of_app, skip_app.
Qed.

Lemma snumber_inv (s n t : string) :
  snumber s = Some (n, t) ->
  s = n ++ t /\ signed_integer n /\ no_head is_digit t.
Proof.
  unfold snumber. destruct s as [|c s]; [discriminate|].
  destruct (Ascii.eqb_spec "-" c) as [<-|Hc].
  - destruct (number s) as [[d u]|] eqn:E; [|discriminate].
    intros [= <- <-].
    destruct (some_of_inv _ _ _ _ E) as (-> & Hd & Ha & Hu).
    repeat split; [|exact Hu].
    right. exists d. now repeat split.
  - intros H. destruct (some_of_inv _ _ _ _ H) as (E & Hd & Ha & Hu).
    repeat split; [exact E | | exact Hu].
    left. now split.
Qed.

Lemma snumber_app (n t : string) :
  signed_integer n -> no_head is_digit t -> snumber (n ++ t) = Some (n, t).
Proof.
  intros [[Hn Ha] | (d & -> & Hn & Ha)] Ht.
  - pose proof (some_of_app (Class CDigit) n t Hn Ha Ht) as E.
    unfold snumber. destruct n as [|c n]; [contradiction|].
    simpl in Ha. apply andb_prop in Ha as [Hc _].
    cbn [append].
    destruct (Ascii.eqb_spec "-" c) as [<-|]; [discriminate Hc | exact E].
  - cbn [append snumber]. rewrite Ascii.eqb_refl. unfold number.
    now rewrite (some_of_app (Class CDigit) d t Hn Ha Ht).
Qed.

(** ** The scanner and the grammar *)

Lemma no_head_after_blank (p : ascii -> bool) (w : string) (c : ascii)
      (t : string) :
  (forall x, is_space x = true -> p x = false) ->
  blank w -> p c = false -> no_head p (w ++ String c t).
Proof.
  intros Hp Hw Hc. destruct w as [|x w]; simpl; [exact Hc|].
  apply Hp. unfold blank in Hw. simpl in Hw.
  now apply andb_prop in Hw as [Hx _].
Qed.

Lemma no_head_after_run (p q : ascii -> bool) (n t : string) :
  (forall x, q x = true -> p x = false) ->
  n <> "" -> all q n = true -> no_head p (n ++ t).
Proof.
  intros Hp Hn Hq. destruct n as [|x n]; [contradiction|]. simpl.
  apply Hp. simpl in Hq. now apply andb_prop in Hq as [Hx _].
Qed.

Lemma no_space_head_signed (n t : string) :
  signed_integer n -> no_head is_space (n ++ t).
Proof.
  intros [[Hn Ha] | (d & -> & _)]; [|reflexivity].
  exact (no_head_after_run is_space is_digit n t digit_not_space Hn Ha).
Qed.

Theorem scan_complete (tok : string) (w : spacing)
        (name size npop npush fmt rest : string) :
  well_formed tok w name size npop npush fmt ->
  no_word_head rest ->
  scan (shape tok w name size npop npush fmt rest)
  = Some (MatchObj [name; size; npop; npush; fmt] rest).
Proof.
  intros (Htok & Hw & [Hn1 Hn2] & [Hs1 Hs2] & Hpop & Hpush & [Hf1 Hf2]) Hrest.
  destruct Hw as (B1 & B2 & B3 & B4 & B5 & B6 & B7 & B8 & B9 & B10).
  unfold scan, scan_fields, scan_pop, scan_push, scan_fmt, shape.
  rewrite (token_app _ _ Htok). cbn [obind].
  rewrite (blanks_app _ _ B1) by reflexivity.
  rewrite expect_lit. cbn [obind].
  rewrite (blanks_app _ _ B2)
    by (now apply (no_head_after_run is_space is_word);
        [apply word_not_space | |]).
  unfold ident. rewrite (some_of_app (Class CWord) name); try assumption;
    [|now apply (no_head_after_blank is_word); [apply space_not_word | |]].
  cbn [obind].
  rewrite (blanks_app _ _ B3) by reflexivity.
  rewrite expect_lit. cbn [obind].
  rewrite (blanks_app _ _ B4)
    by (now apply (no_head_after_run is_space is_digit);
        [apply digit_not_space | |]).
  unfold number at 1.
  rewrite (some_of_app (Class CDigit) size); try assumption;
    [|now apply (no_head_after_blank is_digit); [apply space_not_digit | |]].
  cbn [obind].
  rewrite (blanks_app _ _ B5) by reflexivity.
  rewrite expect_lit. cbn [obind].
  rewrite (blanks_app _ _ B6) by now apply no_space_head_signed.
  rewrite (snumber_app npop); try assumption;
    [|now apply (no_head_after_blank is_digit); [apply space_not_digit | |]].
  cbn [obind].
  rewrite (blanks_app _ _ B7) by reflexivity.
  rewrite expect_lit. cbn [obind].
  rewrite (blanks_app _ _ B8) by now apply no_space_head_signed.
  rewrite (snumber_app npush); try assumption;
    [|now apply (no_head_after_blank is_digit); [apply space_not_digit | |]].
  cbn [obind].
  rewrite (blanks_app _ _ B9) by reflexivity.
  rewrite expect_lit. cbn [obind].
  rewrite (blanks_app _ _ B10)
    by (now apply (no_head_after_run is_space is_word);
        [apply word_not_space | |]).
  rewrite (some_of_app (Class CWord) fmt); try assumption.
  reflexivity.
Qed.

Ltac scan_step H E :=
  match type of H with
  | obind ?o _ = Some _ =>
      destruct o as [?|] eqn:E; cbn [obind] in H; [|discriminate H]
  end.

Ltac split_blanks s w B S E :=
  destruct (blanks_split s) as (w & B & S); rewrite E in S; clear E.

Theorem scan_sound (s : string) (m : match_obj) :
  scan s = Some m ->
  exists tok w name size npop npush fmt,
    well_formed tok w name size npop npush fmt
    /\ s = shape tok w name size npop npush fmt (tail m)
    /\ groups m = [name; size; npop; npush; fmt]
    /\ no_word_head (tail m).
Proof.
  unfold scan, scan_fields, scan_pop, scan_push, scan_fmt. intros H.
  scan_step H E0. rename s0 into s1.
  scan_step H E1. rename s0 into s2.
  scan_step H E2. destruct p as [name s3]. cbn beta iota in H.
  scan_step H E3. rename s0 into s4.
  scan_step H E4. destruct p as [size s5]. cbn beta iota in H.
  scan_step H E5. rename s0 into s6.
  scan_step H E6. destruct p as [npop s7]. cbn beta iota in H.
  scan_step H E7. rename s0 into s8.
  scan_step H E8. destruct p as [npush s9]. cbn beta iota in H.
  scan_step H E9. rename s0 into s10.
  scan_step H E10. destruct p as [fmt s11]. cbn beta iota in H.
  injection H as <-. cbn [groups tail].
  apply token_inv in E0 as (tok & Htok & S0).
  apply expect_inv in E1, E3, E5, E7, E9.
  apply some_of_inv in E2 as (E2 & Hn1 & Hn2 & _).
  apply some_of_inv in E4 as (E4 & Hs1 & Hs2 & _).
  apply snumber_inv in E6 as (E6 & Hpop & _).
  apply snumber_inv in E8 as (E8 & Hpush & _).
  apply some_of_inv in E10 as (E10 & Hf1 & Hf2 & Hrest).
  split_blanks s1 v1 B1 S1 E1. split_blanks s2 v2 B2 S2 E2.
  split_blanks s3 v3 B3 S3 E3. split_blanks s4 v4 B4 S4 E4.
  split_blanks s5 v5 B5 S5 E5. split_blanks s6 v6 B6 S6 E6.
  split_blanks s7 v7 B7 S7 E7. split_blanks s8 v8 B8 S8 E8.
  split_blanks s9 v9 B9 S9 E9. split_blanks s10 v10 B10 S10 E10.
  exists tok, (Spacing v1 v2 v3 v4 v5 v6 v7 v8 v9 v10),
    name, size, npop, npush, fmt.
  repeat split; try assumption.
  unfold shape. cbn [w1 w2 w3 w4 w5 w6 w7 w8 w9 w10].
  rewrite S0, S1, S2, S3, S4, S5, S6, S7, S8, S9, S10. reflexivity.
Qed.

(** A trimmed line is in the grammar exactly when [re.match] finds a
    match. *)
Theorem conforms_iff_match (s : string) :
  conforms s <-> exists m, re_match pattern s = Some m.
Proof.
  rewrite re_match_scan. split.
  - intros (tok & w & name & size & npop & npush & fmt & rest & Hwf & ->).
    destruct Hwf as (Htok & Hw & Hn & Hs & Hpop & Hpush & [Hf1 Hf2]).
    exists (MatchObj [name; size; npop; npush;
                      fmt ++ run_of (Class CWord) rest]
                     (skip (Class CWord) rest)).
    rewrite <- (run_skip (Class CWord) rest) at 1.
    replace (shape tok w name size npop npush fmt
               (run_of (Class CWord) rest ++ skip (Class CWord) rest))
      with (shape tok w name size npop npush
              (fmt ++ run_of (Class CWord) rest) (skip (Class CWord) rest))
      by (unfold shape; now rewrite !app_assoc_s).
    apply scan_complete; [|apply skip_no_head].
    refine (conj Htok (conj Hw (conj Hn (conj Hs (conj Hpop (conj Hpush
              (conj _ _))))))).
    + destruct fmt; [now elim Hf1 | discriminate].
    + clear - Hf2. induction fmt as [|c fmt IH]; simpl in *.
      * exact (run_of_all (Class CWord) rest).
      * apply andb_prop in Hf2 as [Hc Hf2]. rewrite Hc. now apply IH.
  - intros [m Hm].
    destruct (scan_sound _ _ Hm)
      as (tok & w & name & size & npop & npush & fmt & Hwf & E & _).
    now exists tok, w, name, size, npop, npush, fmt, (tail m).
Qed.

(** ** Number formatting *)

Lemma digit_value_char (d : nat) :
  d < 16 -> digit_value (digit_char d) = Some d.
Proof.
  intros H. do 16 (destruct d as [|d]; [reflexivity|]). lia.
Qed.

Lemma digit_char_upper_hex (d : nat) :
  d < 16 -> is_upper_hex (digit_char d) = true.
Proof.
  intros H. do 16 (destruct d as [|d]; [reflexivity|]). lia.
Qed.

Lemma upper_hex_not_tab (c : ascii) : is_upper_hex c = true -> not_tab c = true.
Proof. by_cases_on_char c. Qed.

Lemma all_app (p : ascii -> bool) (a b : string) :
  all p (a ++ b) = all p a && all p b.
Proof.
  induction a as [|c a IH]; simpl; [reflexivity|].
  now rewrite IH, andb_assoc.
Qed.

Lemma all_impl (p q : ascii -> bool) (s : string) :
  (forall c, p c = true -> q c = true) -> all p s = true -> all q s = true.
Proof.
  intros Hpq. induction s as [|c s IH]; simpl; [reflexivity|].
  intros H. apply andb_prop in H as [Hc Hs].
  now rewrite (Hpq _ Hc), IH.
Qed.

Lemma of_base_acc_app (b : nat) (p t : string) (v : nat) :
  of_base_acc b (p ++ t) v =
  match of_base_acc b p v with
  | Some v' => of_base_acc b t v'
  | None => None
  end.
Proof.
  revert v. induction p as [|c p IH]; intros v; simpl; [reflexivity|].
  destruct (digit_value c) as [d|]; [|reflexivity].
  destruct (Nat.ltb d b); [apply IH | reflexivity].
Qed.

(** The digits [to_base_aux] puts in front of [acc] denote [n], are as many
    as [n] needs, and are digit characters. *)
Lemma to_base_aux_spec (b : nat) (Hb : 2 <= b <= 16) (fuel n : nat)
      (acc : string) :
  n < fuel ->
  exists p,
    to_base_aux fuel b n acc = p ++ acc
    /\ of_base_acc b p 0 = Some n
    /\ p <> ""
    /\ n < b ^ String.length p
    /\ (b <= n -> 2 <= String.length p)
    /\ all is_upper_hex p = true.
Proof.
  revert n acc. induction fuel as [|fuel IH]; intros n acc Hn; [lia|].
  cbn [to_base_aux].
  assert (Hmod : n mod b < b) by (apply Nat.mod_upper_bound; lia).
  assert (Hdm : n = b * (n / b) + n mod b) by (apply Nat.div_mod_eq).
  destruct (Nat.eqb_spec (n / b) 0) as [Hz|Hz].
  - exists (String (digit_char (n mod b)) "").
    assert (Hlt : n < b) by (rewrite Hz in Hdm; lia).
    repeat split.
    + cbn [of_base_acc]. rewrite digit_value_char by lia.
      destruct (Nat.ltb_spec (n mod b) b); [|lia].
      f_equal. rewrite Nat.mod_small by lia. lia.
    + discriminate.
    + cbn [String.length]. rewrite Nat.pow_1_r. exact Hlt.
    + lia.
    + cbn [all]. rewrite digit_char_upper_hex by lia. reflexivity.
  - assert (Hq : n / b < fuel).
    { assert (n / b < n) by (apply Nat.div_lt; lia). lia. }
    destruct (IH (n / b) (String (digit_char (n mod b)) acc) Hq)
      as (p & Ep & Vp & Np & Lp & _ & Ap).
    exists (p ++ String (digit_char (n mod b)) "").
    repeat split.
    + rewrite Ep. now rewrite app_assoc_s.
    + rewrite of_base_acc_app, Vp. cbn [of_base_acc].
      rewrite digit_value_char by lia.
      destruct (Nat.ltb_spec (n mod b) b); [|lia].
      f_equal. lia.
    + destruct p; [now elim Np | discriminate].
    + rewrite length_app_s. cbn [String.length].
      rewrite Nat.add_1_r, Nat.pow_succ_r'. nia.
    + intros _. rewrite length_app_s. cbn [String.length].
      destruct p; [now elim Np | cbn [String.length]; lia].
    + rewrite all_app, Ap. cbn [all].
      rewrite digit_char_upper_hex by lia. reflexivity.
Qed.

Lemma to_base_spec (b : nat) (Hb : 2 <= b <= 16) (n : nat) :
  of_base b (to_base b n) = Some n
  /\ n < b ^ String.length (to_base b n)
  /\ (b <= n -> 2 <= String.length (to_base b n))
  /\ all is_upper_hex (to_base b n) = true.
Proof.
  destruct (to_base_aux_spec b Hb (S n) n "" (Nat.lt_succ_diag_r n))
    as (p & Ep & Vp & Np & Lp & Mp & Ap).
  unfold to_base. rewrite Ep, app_nil_r_s.
  repeat split; try assumption.
  unfold of_base. destruct p; [now elim Np | exact Vp].
Qed.

Lemma zero_pad_wide (w : nat) (s : string) :
  w <= String.length s -> zero_pad w s = s.
Proof.
  intros H. unfold zero_pad.
  now replace (w - String.length s) with 0 by lia.
Qed.

Lemma format_02X_small (i : nat) : i < 256 -> format_02X i = two_hex_digits i.
Proof.
  intros H.
  assert (C : forallb (fun i => String.eqb (format_02X i) (two_hex_digits i))
                (seq 0 256) = true) by (vm_compute; reflexivity).
  rewrite forallb_forall in C.
  apply String.eqb_eq, C, in_seq. lia.
Qed.

Lemma format_02X_large (i : nat) :
  256 <= i -> format_02X i = to_base 16 i /\ 2 < String.length (format_02X i).
Proof.
  intros H.
  destruct (to_base_spec 16 ltac:(lia) i) as (_ & L & M & _).
  assert (E : format_02X i = to_base 16 i)
    by (apply zero_pad_wide, M; lia).
  split; [exact E|]. rewrite E.
  destruct (String.length (to_base 16 i)) as [|[|[|n]]]; simpl in L; lia.
Qed.

Lemma format_02X_value (i : nat) : of_base 16 (format_02X i) = Some i.
Proof.
  destruct (to_base_spec 16 ltac:(lia) i) as (V & _ & M & _).
  destruct (Nat.le_gt_cases 16 i) as [H|H].
  - unfold format_02X. rewrite zero_pad_wide by auto. exact V.
  - do 16 (destruct i as [|i]; [reflexivity|]). lia.
Qed.

Lemma format_02X_upper_hex (i : nat) : all is_upper_hex (format_02X i) = true.
Proof.
  destruct (to_base_spec 16 ltac:(lia) i) as (_ & _ & _ & A).
  unfold format_02X, zero_pad. rewrite all_app, A, andb_true_r.
  generalize (2 - String.length (to_base 16 i)).
  intros n. induction n as [|n IH]; [reflexivity | exact IH].
Qed.

Lemma format_d_value (i : nat) : of_base 10 (format_d i) = Some i.
Proof. exact (proj1 (to_base_spec 10 ltac:(lia) i)). Qed.

Lemma format_d_upper_hex (i : nat) : all is_upper_hex (format_d i) = true.
Proof. exact (proj2 (proj2 (proj2 (to_base_spec 10 ltac:(lia) i)))). Qed.

(** ** Tab-separated fields *)

Lemma split_no_sep (sep : ascii) (a : string) :
  all (fun c => negb (Ascii.eqb c sep)) a = true -> split sep a = [a].
Proof.
  induction a as [|c a IH]; simpl; [reflexivity|].
  intros H. apply andb_prop in H as [Hc Ha].
  destruct (Ascii.eqb c sep); [discriminate|]. now rewrite (IH Ha).
Qed.

Lemma split_app (sep : ascii) (a b : string) :
  all (fun c => negb (Ascii.eqb c sep)) a = true ->
  split sep (a ++ String sep b) = a :: split sep b.
Proof.
  induction a as [|c a IH]; simpl.
  - now rewrite Ascii.eqb_refl.
  - intros H. apply andb_prop in H as [Hc Ha].
    destruct (Ascii.eqb c sep); [discriminate|]. now rewrite (IH Ha).
Qed.

Lemma split_app_lit (sep : ascii) (a b : string) :
  all (fun c => negb (Ascii.eqb c sep)) a = true ->
  split sep (a ++ String sep "" ++ b) = a :: split sep b.
Proof. exact (split_app sep a b). Qed.

Lemma fields_of_record (i : nat) (name size npop npush fmt : string) :
  all not_tab name = true -> all not_tab size = true ->
  all not_tab npop = true -> all not_tab npush = true ->
  all not_tab fmt = true ->
  split tab (format_record i name size npop npush fmt)
  = [ format_d i; "0x" ++ format_02X i; "OP_" ++ name; "size=" ++ size;
      "pop=" ++ npop; "push=" ++ npush; "fmt=" ++ fmt ].
Proof.
  intros Hn Hs Hpo Hpu Hf. unfold format_record, TAB.
  assert (Hd : all not_tab (format_d i) = true)
    by (apply (all_impl is_upper_hex), format_d_upper_hex;
        apply upper_hex_not_tab).
  assert (Hx : all not_tab (format_02X i) = true)
    by (apply (all_impl is_upper_hex), format_02X_upper_hex;
        apply upper_hex_not_tab).
  rewrite (split_app_lit tab (format_d i)) by exact Hd. f_equal.
  rewrite <- (app_assoc_s "0x" (format_02X i)).
  rewrite (split_app_lit tab ("0x" ++ format_02X i)) by exact Hx. f_equal.
  rewrite <- (app_assoc_s "OP_" name).
  rewrite (split_app_lit tab ("OP_" ++ name)) by exact Hn. f_equal.
  rewrite <- (app_assoc_s "size=" size).
  rewrite (split_app_lit tab ("size=" ++ size)) by exact Hs. f_equal.
  rewrite <- (app_assoc_s "pop=" npop).
  rewrite (split_app_lit tab ("pop=" ++ npop)) by exact Hpo. f_equal.
  rewrite <- (app_assoc_s "push=" npush).
  rewrite (split_app_lit tab ("push=" ++ npush)) by exact Hpu. f_equal.
  apply split_no_sep. exact Hf.
Qed.

(** ** One iteration and the whole loop *)

Lemma match_inv (s : string) (m : match_obj) :
  re_match pattern s = Some m ->
  exists tok w name size npop npush fmt,
    well_formed tok w name size npop npush fmt
    /\ s = shape tok w name size npop npush fmt (tail m)
    /\ groups m = [name; size; npop; npush; fmt]
    /\ no_word_head (tail m).
Proof. rewrite re_match_scan. apply scan_sound. Qed.

Lemma loop_body_match (line : string) (st : state) (m : match_obj)
      (name size npop npush fmt : string) :
  re_match pattern (strip line) = Some m ->
  groups m = [name; size; npop; npush; fmt] ->
  loop_body line st
  = Finished (State (S (idx st))
                (stdout st ++ [format_record (idx st) name size npop npush fmt])%list).
Proof. intros Hm Hg. unfold loop_body, loop_body_on. now rewrite Hm, Hg. Qed.

Lemma loop_body_no_match (line : string) (st : state) :
  re_match pattern (strip line) = None -> loop_body line st = Finished st.
Proof. intros Hm. unfold loop_body, loop_body_on. now rewrite Hm. Qed.

Lemma loop_body_spec (line : string) (st : state) :
  loop_body line st =
  if matches line
  then Finished (State (S (idx st)) (stdout st ++ [record_of (idx st) line])%list)
  else Finished st.
Proof.
  unfold matches, record_of, captures.
  destruct (re_match pattern (strip line)) as [m|] eqn:Hm.
  - destruct (match_inv _ _ Hm)
      as (tok & w & name & size & npop & npush & fmt & _ & _ & Hg & _).
    rewrite (loop_body_match _ _ _ _ _ _ _ _ Hm Hg).
    cbn [option_map]. now rewrite Hg.
  - now apply loop_body_no_match.
Qed.

Lemma numbered_cons (i : nat) (l : string) (ls : list string) :
  numbered i (l :: ls) = record_of i l :: numbered (S i) ls.
Proof. reflexivity. Qed.

Lemma for_each_nil (st : state) : for_each [] st = Finished st.
Proof. reflexivity. Qed.

Lemma for_each_cons (l : string) (lines : list string) (st : state) :
  for_each (l :: lines) st = bind (loop_body l st) (for_each lines).
Proof. reflexivity. Qed.

Lemma for_each_spec (lines : list string) (st : state) :
  for_each lines st =
  Finished (State (idx st + List.length (filter matches lines))
              (stdout st ++ numbered (idx st) (filter matches lines))%list).
Proof.
  revert st. induction lines as [|l lines IH]; intros [i out];
    [rewrite for_each_nil | rewrite for_each_cons].
  - cbn [filter List.length idx stdout numbered].
    unfold numbered. cbn. now rewrite Nat.add_0_r, app_nil_r.
  - rewrite loop_body_spec. cbn [filter idx stdout].
    destruct (matches l); cbn [bind]; rewrite IH; cbn [idx stdout].
    + rewrite numbered_cons. cbn [List.length].
      rewrite <- app_assoc. cbn [app].
      now rewrite Nat.add_succ_r.
    + reflexivity.
Qed.

Lemma run_spec (text : string) :
  run text =
  Finished (State (List.length (filter matches (split newline text)))
              (numbered 0 (filter matches (split newline text)))).
Proof. unfold run. now rewrite for_each_spec. Qed.

Lemma output_spec (text : string) :
  output text = numbered 0 (filter matches (split newline text)).
Proof. unfold output. now rewrite run_spec. Qed.

Lemma numbered_length (i : nat) (ls : list string) :
  List.length (numbered i ls) = List.length ls.
Proof.
  unfold numbered. rewrite length_map, length_combine, length_seq.
  apply Nat.min_id.
Qed.

Lemma numbered_nth (ls : list string) (i n : nat) :
  nth_error (numbered i ls) n
  = option_map (record_of (i + n)) (nth_error ls n).
Proof.
  revert i n. induction ls as [|l ls IH]; intros i n.
  - now destruct n.
  - rewrite numbered_cons. destruct n as [|n]; cbn [nth_error option_map].
    + now rewrite Nat.add_0_r.
    + rewrite IH. now rewrite Nat.add_succ_r.
Qed.

(** ** What the fields of a record are *)

Lemma word_is_not_tab (c : ascii) : is_word c = true -> not_tab c = true.
Proof. by_cases_on_char c. Qed.

Lemma digit_is_not_tab (c : ascii) : is_digit c = true -> not_tab c = true.
Proof. by_cases_on_char c. Qed.

Lemma identifier_no_tab (s : string) : identifier s -> all not_tab s = true.
Proof. intros [_ H]. exact (all_impl _ _ s word_is_not_tab H). Qed.

Lemma integer_no_tab (s : string) : integer s -> all not_tab s = true.
Proof. intros [_ H]. exact (all_impl _ _ s digit_is_not_tab H). Qed.

Lemma signed_integer_no_tab (s : string) :
  signed_integer s -> all not_tab s = true.
Proof.
  intros [H | (d & -> & H)]; [now apply integer_no_tab|].
  cbn [all]. now rewrite (integer_no_tab d H).
Qed.

Lemma record_fields (i : nat) (tok : string) (w : spacing)
      (name size npop npush fmt : string) :
  well_formed tok w name size npop npush fmt ->
  split tab (format_record i name size npop npush fmt)
  = [ format_d i; "0x" ++ format_02X i; "OP_" ++ name; "size=" ++ size;
      "pop=" ++ npop; "push=" ++ npush; "fmt=" ++ fmt ].
Proof.
  intros (_ & _ & Hn & Hs & Hpo & Hpu & Hf).
  apply fields_of_record;
    auto using identifier_no_tab, integer_no_tab, signed_integer_no_tab.
Qed.

(** The record of a matching line: its captures are well formed, and its
    tab-separated fields are the two renderings of the counter and the
    tagged captures. *)
Lemma record_of_match (i : nat) (line : string) :
  matches line = true ->
  exists tok w name size npop npush fmt rest,
    well_formed tok w name size npop npush fmt
    /\ strip line = shape tok w name size npop npush fmt rest
    /\ captures line = Some [name; size; npop; npush; fmt]
    /\ record_of i line = format_record i name size npop npush fmt
    /\ split tab (record_of i line)
       = [ format_d i; "0x" ++ format_02X i; "OP_" ++ name; "size=" ++ size;
           "pop=" ++ npop; "push=" ++ npush; "fmt=" ++ fmt ].
Proof.
  unfold matches, record_of, captures.
  destruct (re_match pattern (strip line)) as [m|] eqn:Hm; [|discriminate].
  intros _.
  destruct (match_inv _ _ Hm)
    as (tok & w & name & size & npop & npush & fmt & Hwf & E & Hg & _).
  exists tok, w, name, size, npop, npush, fmt, (tail m).
  cbn [option_map]. rewrite Hg.
  split; [exact Hwf|]. split; [exact E|].
  split; [reflexivity|]. split; [reflexivity|].
  now apply (record_fields i tok w).
Qed.

(** ** The claims *)

Lemma field_0_record (i : nat) (line : string) :
  matches line = true -> field 0 (record_of i line) = format_d i.
Proof.
  intros H.
  destruct (record_of_match i line H)
    as (tok & w & name & size & npop & npush & fmt & rest & _ & _ & _ & _ & F).
  unfold field. now rewrite F.
Qed.

Lemma index_fields (ms : list string) (i : nat) :
  (forall l, In l ms -> matches l = true) ->
  map (fun r => of_base 10 (field 0 r)) (numbered i ms)
  = map Some (seq i (List.length ms)).
Proof.
  revert i. induction ms as [|l ms IH]; intros i Hms; [reflexivity|].
  rewrite numbered_cons. cbn [map List.length seq].
  rewrite field_0_record by (apply Hms; now left).
  rewrite format_d_value. f_equal.
  apply IH. intros l' Hl'. apply Hms. now right.
Qed.

Lemma filter_matches (lines : list string) (l : string) :
  In l (filter matches lines) -> matches l = true.
Proof. intros H. now apply filter_In in H. Qed.

(** C1. Whatever the input text, the run ends normally with the counter at
    the number [k] of matching lines; the first fields of the printed
    records, read as decimal numbers, are 0, 1, ..., k-1; the [n]-th record
    is the record of the [n]-th matching line; one iteration advances the
    counter by one on a match and not at all otherwise; and the matching
    lines are the lines whose trimmed text is in the grammar. *)
Theorem C1_index_sequence (text : string) :
  run text
  = Finished (State (List.length (filter matches (split newline text)))
                (numbered 0 (filter matches (split newline text))))
  /\ map (fun r => of_base 10 (field 0 r)) (output text)
     = map Some (seq 0 (List.length (filter matches (split newline text))))
  /\ (forall n,
        nth_error (output text) n
        = option_map (record_of n)
            (nth_error (filter matches (split newline text)) n))
  /\ (forall line st,
        idx (final (loop_body line st))
        = idx st + (if matches line then 1 else 0))
  /\ (forall line, matches line = true <-> conforms (strip line)).
Proof.
  split; [apply run_spec|]. split; [|split; [|split]].
  - rewrite output_spec. apply index_fields, filter_matches.
  - intros n. rewrite output_spec. apply numbered_nth.
  - intros line st. rewrite loop_body_spec.
    destruct (matches line); cbn [final idx]; lia.
  - intros line. rewrite conforms_iff_match. unfold matches.
    destruct (re_match pattern (strip line)) as [m|].
    + split; [now exists m | reflexivity].
    + split; [discriminate | now intros [m Hm]].
Qed.

Lemma C1_index_sequence_witness :
  map (fun r => of_base 10 (field 0 r)) (output (valid_lines 3))
  = [Some 0; Some 1; Some 2]
  /\ conforms (strip "  def(bar, 2, -1, 1, none)  ").
Proof.
  split.
  - exact (proj1 (proj2 (C1_index_sequence (valid_lines 3)))).
  - apply (proj2 (proj2 (proj2 (proj2 (C1_index_sequence "")))) _).
    reflexivity.
Defined.

Lemma captures_matches (line : string) (g : list string) :
  captures line = Some g -> matches line = true.
Proof.
  unfold captures, matches.
  now destruct (re_match pattern (strip line)).
Qed.

Lemma record_of_strip (i : nat) (l l' : string) :
  strip l = strip l' -> record_of i l = record_of i l'.
Proof. intros E. unfold record_of, captures. now rewrite E. Qed.

(** C2. When the one matching line of the input is
    [DEF(push_i32, 5, 0, 1, i32)], the output is the one record
    [0 0x00 OP_push_i32 size=5 pop=0 push=1 fmt=i32] with tabs between the
    fields; and the third field of any record is the captured name behind
    the tag [OP_], whatever the name is. *)
Theorem C2_scenario_A (text : string) :
  map strip (filter matches (split newline text)) = [scenario_A_line] ->
  output text = [scenario_A_record]
  /\ (forall i line name size npop npush fmt,
        captures line = Some [name; size; npop; npush; fmt] ->
        field 2 (record_of i line) = "OP_" ++ name).
Proof.
  intros H. split.
  - rewrite output_spec.
    destruct (filter matches (split newline text)) as [|l [|l' ms]];
      try discriminate H.
    cbn [map] in H. injection H as H.
    unfold numbered. cbn [List.length seq combine map fst snd].
    unfold record_of, captures. rewrite H. reflexivity.
  - intros i line name size npop npush fmt Hc.
    destruct (record_of_match i line (captures_matches _ _ Hc))
      as (tok & w & name' & size' & npop' & npush' & fmt' & rest
          & _ & _ & Hc' & _ & F).
    rewrite Hc in Hc'. injection Hc' as -> -> -> -> ->.
    unfold field. now rewrite F.
Qed.

Lemma C2_scenario_A_witness :
  output ("// opcodes" ++ String newline ("  " ++ scenario_A_line
            ++ String newline ""))
  = [scenario_A_record].
Proof.
  apply C2_scenario_A. vm_compute. reflexivity.
Defined.

Lemma nth_output (text : string) (i : nat) (r : string) :
  nth_error (output text) i = Some r ->
  exists l, matches l = true /\ r = record_of i l.
Proof.
  rewrite output_spec, numbered_nth. cbn [Nat.add].
  destruct (nth_error (filter matches (split newline text)) i) as [l|] eqn:E;
    [|discriminate].
  intros [= <-]. exists l. split; [|reflexivity].
  apply nth_error_In in E. now apply filter_matches in E.
Qed.

(** C3. In the record printed at index [i], the first field is [i] in
    decimal and the second is [0x] followed by [i] in upper-case
    hexadecimal, which denotes [i] however large it is: exactly two digits
    when [i] is below 256, more than two from 256 on. 255 gives [FF] and
    256 gives [100]. *)
Theorem C3_hex_field (text : string) (i : nat) (r : string) :
  nth_error (output text) i = Some r ->
  of_base 10 (field 0 r) = Some i
  /\ field 1 r = "0x" ++ format_02X i
  /\ all is_upper_hex (format_02X i) = true
  /\ of_base 16 (format_02X i) = Some i
  /\ (i < 256 -> format_02X i = two_hex_digits i)
  /\ (256 <= i -> 2 < String.length (format_02X i))
  /\ format_02X 255 = "FF" /\ format_02X 256 = "100".
Proof.
  intros H. destruct (nth_output _ _ _ H) as (l & Hl & ->).
  destruct (record_of_match i l Hl)
    as (tok & w & name & size & npop & npush & fmt & rest
        & _ & _ & _ & _ & F).
  unfold field. rewrite F. cbn [nth].
  split; [apply format_d_value|]. split; [reflexivity|].
  split; [apply format_02X_upper_hex|]. split; [apply format_02X_value|].
  split; [apply format_02X_small|].
  split; [intros G; apply (format_02X_large i G)|].
  split; reflexivity.
Qed.

Lemma C3_hex_field_witness :
  exists r,
    nth_error (output (valid_lines 300)) 256 = Some r
    /\ field 0 r = "256" /\ field 1 r = "0x100".
Proof.
  exists (format_record 256 "op256" "1" "0" "1" "f256").
  assert (H : nth_error (output (valid_lines 300)) 256
              = Some (format_record 256 "op256" "1" "0" "1" "f256"))
    by (vm_compute; reflexivity).
  split; [exact H|]. split; [vm_compute; reflexivity|].
  exact (proj1 (proj2 (C3_hex_field _ _ _ H))).
Defined.

(** ** Lines that do not match *)

Lemma integer_field_fwd (v n v' rest : string)
      (k : string -> string -> option match_obj) :
  blank v -> integer n -> blank v' ->
  (let? '(x, s) := number (blanks (v ++ n ++ v' ++ "," ++ rest)) in
   let? s := expect "," (blanks s) in k x s)
  = k n rest.
Proof.
  intros Bv [Hn Ha] Bv'.
  rewrite (blanks_app _ _ Bv)
    by (now apply (no_head_after_run is_space is_digit);
        [apply digit_not_space | |]).
  unfold number. rewrite (some_of_app (Class CDigit) n); try assumption;
    [|now apply (no_head_after_blank is_digit); [apply space_not_digit | |]].
  cbn [obind]. rewrite (blanks_app _ _ Bv') by reflexivity.
  now rewrite expect_lit.
Qed.

Lemma signed_field_fwd (v n v' rest : string)
      (k : string -> string -> option match_obj) :
  blank v -> signed_integer n -> blank v' ->
  (let? '(x, s) := snumber (blanks (v ++ n ++ v' ++ "," ++ rest)) in
   let? s := expect "," (blanks s) in k x s)
  = k n rest.
Proof.
  intros Bv Hn Bv'.
  rewrite (blanks_app _ _ Bv) by now apply no_space_head_signed.
  rewrite (snumber_app n); try assumption;
    [|now apply (no_head_after_blank is_digit); [apply space_not_digit | |]].
  cbn [obind]. rewrite (blanks_app _ _ Bv') by reflexivity.
  now rewrite expect_lit.
Qed.

Lemma integer_field_inv (after : string)
      (k : string -> string -> option match_obj) :
  ~ literal_then_comma integer after ->
  (let? '(x, s) := number (blanks after) in
   let? s := expect "," (blanks s) in k x s)
  = None.
Proof.
  intros Hbad.
  destruct (number (blanks after)) as [[n s]|] eqn:E; [|reflexivity].
  cbn [obind].
  destruct (expect "," (blanks s)) as [s'|] eqn:E'; [|reflexivity].
  elim Hbad.
  apply some_of_inv in E as (E & Hn & Ha & _). apply expect_inv in E'.
  destruct (blanks_split after) as (v & Bv & Sv). rewrite E in Sv.
  destruct (blanks_split s) as (v' & Bv' & Sv'). rewrite E' in Sv'.
  exists v, n, v', s'. repeat split; try assumption.
  now rewrite Sv, Sv'.
Qed.

Lemma signed_field_inv (after : string)
      (k : string -> string -> option match_obj) :
  ~ literal_then_comma signed_integer after ->
  (let? '(x, s) := snumber (blanks after) in
   let? s := expect "," (blanks s) in k x s)
  = None.
Proof.
  intros Hbad.
  destruct (snumber (blanks after)) as [[n s]|] eqn:E; [|reflexivity].
  cbn [obind].
  destruct (expect "," (blanks s)) as [s'|] eqn:E'; [|reflexivity].
  elim Hbad.
  apply snumber_inv in E as (E & Hn & _). apply expect_inv in E'.
  destruct (blanks_split after) as (v & Bv & Sv). rewrite E in Sv.
  destruct (blanks_split s) as (v' & Bv' & Sv'). rewrite E' in Sv'.
  exists v, n, v', s'. repeat split; try assumption.
  now rewrite Sv, Sv'.
Qed.

Lemma scan_upto_name (p name after : string) :
  upto_name p name -> scan (p ++ after) = scan_fields name after.
Proof.
  intros (tok & v1 & v2 & v3 & (Htok & B1 & B2 & [Hn Ha] & B3) & ->).
  unfold header, scan. rewrite !app_assoc_s.
  rewrite (token_app _ _ Htok). cbn [obind].
  rewrite (blanks_app _ _ B1) by reflexivity.
  rewrite expect_lit. cbn [obind].
  rewrite (blanks_app _ _ B2)
    by (now apply (no_head_after_run is_space is_word);
        [apply word_not_space | |]).
  unfold ident. rewrite (some_of_app (Class CWord) name); try assumption;
    [|now apply (no_head_after_blank is_word); [apply space_not_word | |]].
  cbn [obind]. rewrite (blanks_app _ _ B3) by reflexivity.
  now rewrite expect_lit.
Qed.

Lemma scan_upto_size (p name size after : string) :
  upto_size p name size -> scan (p ++ after) = scan_pop name size after.
Proof.
  intros (p1 & v4 & v5 & Hp1 & B4 & Hs & B5 & ->).
  rewrite !app_assoc_s. rewrite (scan_upto_name _ _ _ Hp1).
  unfold scan_fields.
  exact (integer_field_fwd v4 size v5 after (scan_pop name) B4 Hs B5).
Qed.

Lemma scan_upto_pop (p name size npop after : string) :
  upto_pop p name size npop ->
  scan (p ++ after) = scan_push name size npop after.
Proof.
  intros (p2 & v6 & v7 & Hp2 & B6 & Hs & B7 & ->).
  rewrite !app_assoc_s. rewrite (scan_upto_size _ _ _ _ Hp2).
  unfold scan_pop.
  exact (signed_field_fwd v6 npop v7 after (scan_push name size) B6 Hs B7).
Qed.

Lemma malformed_no_match (line : string) :
  malformed_integer line -> re_match pattern (strip line) = None.
Proof.
  rewrite re_match_scan.
  intros [(p & name & after & Hp & -> & Hbad)
         | [(p & name & size & after & Hp & -> & Hbad)
           | (p & name & size & npop & after & Hp & -> & Hbad)]].
  - rewrite (scan_upto_name _ _ _ Hp).
    exact (integer_field_inv after (scan_pop name) Hbad).
  - rewrite (scan_upto_size _ _ _ _ Hp).
    exact (signed_field_inv after (scan_push name size) Hbad).
  - rewrite (scan_upto_pop _ _ _ _ _ Hp).
    exact (signed_field_inv after (scan_fmt name size npop) Hbad).
Qed.

Lemma count_app (c : ascii) (a b : string) :
  count c (a ++ b) = count c a + count c b.
Proof.
  induction a as [|x a IH]; simpl; [reflexivity|]. rewrite IH. lia.
Qed.

Lemma count_lstrip (c : ascii) (s : string) : count c (lstrip s) <= count c s.
Proof.
  induction s as [|x s IH]; simpl; [lia|].
  destruct (is_space x); simpl; lia.
Qed.

Lemma count_rstrip (c : ascii) (s : string) : count c (rstrip s) <= count c s.
Proof.
  induction s as [|x s IH]; simpl; [lia|].
  destruct (rstrip s); [destruct (is_space x)|]; simpl in *; lia.
Qed.

Lemma count_strip (c : ascii) (s : string) : count c (strip s) <= count c s.
Proof.
  unfold strip.
  pose proof (count_rstrip c (lstrip s)). pose proof (count_lstrip c s). lia.
Qed.

Lemma conforms_commas (s : string) : conforms s -> 4 <= count "," s.
Proof.
  intros (tok & w & name & size & npop & npush & fmt & rest & _ & ->).
  unfold shape. rewrite !count_app. cbn [count Ascii.eqb].
  change (Ascii.eqb "," ",") with true. cbn. lia.
Qed.

Lemma not_conforms_no_match (s : string) :
  ~ conforms s -> re_match pattern s = None.
Proof.
  intros H. destruct (re_match pattern s) as [m|] eqn:E; [|reflexivity].
  elim H. apply conforms_iff_match. now exists m.
Qed.

Lemma empty_no_match (line : string) :
  empty_line line -> re_match pattern (strip line) = None.
Proof. unfold empty_line. now intros ->. Qed.

Lemma comment_no_match (line : string) :
  comment_line line -> re_match pattern (strip line) = None.
Proof. now intros (t & [-> | ->]). Qed.

Lemma few_arguments_no_match (line : string) :
  few_arguments line -> re_match pattern (strip line) = None.
Proof.
  unfold few_arguments. intros H. apply not_conforms_no_match.
  intros Hc. apply conforms_commas in Hc.
  pose proof (count_strip "," line). lia.
Qed.

(** C4. A line whose trimmed text is not in the five-field grammar is
    passed over: the iteration ends normally and leaves the counter and the
    output as they were. Empty lines, comment lines, lines with at most
    three commas, and lines with something else than a decimal literal
    where the size, the pop count or the push count belongs are such
    lines. *)
Theorem C4_non_matching_line_skipped (line : string) (st : state) :
  ~ conforms (strip line) \/ empty_line line \/ comment_line line
  \/ few_arguments line \/ malformed_integer line ->
  matches line = false /\ loop_body line st = Finished st.
Proof.
  intros H.
  assert (E : re_match pattern (strip line) = None).
  { destruct H as [H | [H | [H | [H | H]]]].
    - now apply not_conforms_no_match.
    - now apply empty_no_match.
    - now apply comment_no_match.
    - now apply few_arguments_no_match.
    - now apply malformed_no_match. }
  split; [unfold matches; now rewrite E | now apply loop_body_no_match].
Qed.

Ltac no_literal_then_comma lit_fwd :=
  let v := fresh "v" in
  let n := fresh "n" in
  let v' := fresh "v'" in
  let rest := fresh "rest" in
  let Bv := fresh in
  let Hn := fresh in
  let Bv' := fresh in
  let E := fresh in
  let F := fresh in
  intros (v & n & v' & rest & Bv & Hn & Bv' & E);
  pose proof (lit_fwd v n v' rest (fun _ _ => Some (MatchObj [] ""))
                Bv Hn Bv') as F;
  rewrite <- E in F; vm_compute in F; discriminate F.

Lemma upto_name_plain (tok name : string) :
  macro_token tok -> identifier name ->
  upto_name (tok ++ "(" ++ name ++ ",") name.
Proof.
  intros Ht Hn. exists tok, "", "", "".
  repeat split; try assumption; try reflexivity; apply Hn.
Qed.

Lemma C4_non_matching_line_skipped_witness :
  let st := State 7 ["earlier"] in
  loop_body "" st = Finished st
  /\ loop_body "   " st = Finished st
  /\ loop_body "// DEF(foo, 1, 0, 0, none)" st = Finished st
  /\ loop_body "DEF(foo, 1, 0, 0)" st = Finished st
  /\ loop_body "DEF(foo, 1x, 0, 0, none)" st = Finished st
  /\ loop_body "DEF(foo, 1, +2, 0, none)" st = Finished st.
Proof.
  intros st.
  assert (Hfoo : upto_name "DEF(foo," "foo")
    by (apply (upto_name_plain "DEF" "foo");
        [now left | split; [discriminate | reflexivity]]).
  refine (conj _ (conj _ (conj _ (conj _ (conj _ _)))));
    apply C4_non_matching_line_skipped.
  - right. left. reflexivity.
  - right. left. reflexivity.
  - right. right. left. exists " DEF(foo, 1, 0, 0, none)". now left.
  - right. right. right. left. unfold few_arguments. vm_compute. lia.
  - right. right. right. right. left.
    exists "DEF(foo,", "foo", " 1x, 0, 0, none)".
    split; [exact Hfoo|]. split; [reflexivity|].
    no_literal_then_comma integer_field_fwd.
  - left. intros Hc. apply conforms_iff_match in Hc as [m Hm].
    vm_compute in Hm. discriminate Hm.
Defined.

Lemma negative_size_no_match (line : string) :
  negative_size line -> re_match pattern (strip line) = None.
Proof.
  intros (p & name & v4 & d & rest & Hp & B4 & _ & ->).
  rewrite re_match_scan, (scan_upto_name _ _ _ Hp).
  unfold scan_fields. now rewrite (blanks_app _ _ B4).
Qed.

Lemma negative_size_example :
  negative_size "DEF(push_i32, -5, 0, 1, i32)".
Proof.
  exists "DEF(push_i32,", "push_i32", " ", "5", ", 0, 1, i32)".
  split; [|split; [reflexivity | split; [|reflexivity]]].
  - apply (upto_name_plain "DEF" "push_i32");
      [now left | split; [discriminate | reflexivity]].
  - split; [discriminate | reflexivity].
Qed.

(** C5, as stated, fails: [DEF(push_i32, -5, 0, 1, i32)] prints nothing,
    and no line whose size is written with a minus sign is a match. *)
Lemma C5_negative_size_counterexample :
  output "DEF(push_i32, -5, 0, 1, i32)" = []
  /\ ~ (exists line, negative_size line /\ matches line = true).
Proof.
  split; [reflexivity|].
  intros (line & Hneg & Hm). unfold matches in Hm.
  now rewrite (negative_size_no_match line Hneg) in Hm.
Qed.

(** C5, amended. The size is an unsigned decimal literal: a line whose size
    is written with a leading minus sign is not a match, prints nothing and
    leaves the counter alone, and the size of every match is a run of
    digits. The minus sign is accepted in the pop and push counts only. *)
Theorem C5_size_is_unsigned (line : string) (st : state) :
  negative_size line ->
  matches line = false
  /\ loop_body line st = Finished st
  /\ (forall l g,
        captures l = Some g ->
        exists name size npop npush fmt,
          g = [name; size; npop; npush; fmt]
          /\ integer size /\ signed_integer npop /\ signed_integer npush)
  /\ captures "def(bar, 2, -1, -3, none)"
     = Some ["bar"; "2"; "-1"; "-3"; "none"].
Proof.
  intros Hneg. pose proof (negative_size_no_match line Hneg) as E.
  split; [unfold matches; now rewrite E|].
  split; [now apply loop_body_no_match|].
  split; [|reflexivity].
  intros l g Hc.
  destruct (record_of_match 0 l (captures_matches _ _ Hc))
    as (tok & w & name & size & npop & npush & fmt & rest
        & Hwf & _ & Hc' & _).
  rewrite Hc in Hc'. injection Hc' as ->.
  exists name, size, npop, npush, fmt.
  destruct Hwf as (_ & _ & _ & Hs & Hpo & Hpu & _).
  split; [reflexivity|]. split; [exact Hs|]. split; assumption.
Qed.

Lemma C5_size_is_unsigned_witness :
  output "DEF(push_i32, -5, 0, 1, i32)" = []
  /\ loop_body "DEF(push_i32, -5, 0, 1, i32)" initial = Finished initial.
Proof.
  split; [reflexivity|].
  exact (proj1 (proj2 (C5_size_is_unsigned _ initial negative_size_example))).
Defined.

(** ** Anchoring *)

Lemma shape_rest (tok : string) (w : spacing)
      (name size npop npush fmt rest : string) :
  shape tok w name size npop npush fmt rest
  = shape tok w name size npop npush fmt "" ++ rest.
Proof. unfold shape. now rewrite !app_assoc_s. Qed.

Lemma match_token (s : string) (m : match_obj) :
  re_match pattern s = Some m ->
  exists tok body, macro_token tok /\ s = tok ++ body.
Proof.
  intros Hm.
  destruct (match_inv _ _ Hm)
    as (tok & w & name & size & npop & npush & fmt & Hwf & E & _).
  exists tok. eexists. split; [apply Hwf | exact E].
Qed.

(** C6. The match is anchored at the start of the trimmed line: a line
    whose trimmed text does not begin with the macro token is not a match.
    It is not anchored at the end: the trimmed text of a matching line is a
    head followed by the unmatched tail, which never starts with a word
    character, and the head followed by anything else still matches; when
    what follows does not go on with a word character either, the
    captures, and so the record, are the same. *)
Theorem C6_anchored_at_start_only (line : string) :
  ((forall tok body, macro_token tok -> strip line <> tok ++ body) ->
   matches line = false)
  /\ (forall m,
        re_match pattern (strip line) = Some m ->
        exists head,
          strip line = head ++ tail m
          /\ no_word_head (tail m)
          /\ (forall t, exists m', re_match pattern (head ++ t) = Some m')
          /\ (forall t,
                no_word_head t ->
                re_match pattern (head ++ t) = Some (MatchObj (groups m) t))
          /\ (forall t line' i,
                no_word_head t -> strip line' = head ++ t ->
                record_of i line' = record_of i line)).
Proof.
  split.
  - intros Hno. unfold matches.
    destruct (re_match pattern (strip line)) as [m|] eqn:Hm; [|reflexivity].
    destruct (match_token _ _ Hm) as (tok & body & Htok & E).
    now elim (Hno tok body Htok).
  - intros m Hm.
    destruct (match_inv _ _ Hm)
      as (tok & w & name & size & npop & npush & fmt & Hwf & E & Hg & Ht).
    exists (shape tok w name size npop npush fmt "").
    assert (Hany : forall t,
               no_word_head t ->
               re_match pattern (shape tok w name size npop npush fmt "" ++ t)
               = Some (MatchObj (groups m) t)).
    { intros t Hnw. rewrite <- shape_rest, re_match_scan, Hg.
      now apply scan_complete. }
    split; [now rewrite <- shape_rest|]. split; [exact Ht|].
    split; [|split].
    + intros t. apply conforms_iff_match. rewrite <- shape_rest.
      now exists tok, w, name, size, npop, npush, fmt, t.
    + exact Hany.
    + intros t line' i Hnw E'. unfold record_of, captures.
      now rewrite E', (Hany t Hnw), Hm.
Qed.

Lemma C6_anchored_at_start_only_witness :
  matches "// DEF(foo, 1, 0, 0, none)" = false
  /\ output ("// DEF(foo, 1, 0, 0, none)"
             ++ String newline "def(bar, 2, -1, 1, none)")
     = [format_record 0 "bar" "2" "-1" "1" "none"]
  /\ exists head,
       "def(bar, 2, -1, 1, none) /* x */" = head ++ ") /* x */"
       /\ forall t,
            no_word_head t ->
            re_match pattern (head ++ t)
            = Some (MatchObj ["bar"; "2"; "-1"; "1"; "none"] t).
Proof.
  split; [|split; [reflexivity|]].
  - apply (proj1 (C6_anchored_at_start_only "// DEF(foo, 1, 0, 0, none)")).
    intros tok body [-> | ->]; discriminate.
  - destruct (proj2 (C6_anchored_at_start_only
                       "def(bar, 2, -1, 1, none) /* x */")
                (MatchObj ["bar"; "2"; "-1"; "1"; "none"] ") /* x */")
                eq_refl)
      as (head & E & _ & _ & H & _).
    exists head. split; [exact E | exact H].
Defined.

(** ** The two spellings of the token *)

Lemma strip_token (tok body : string) :
  macro_token tok -> strip (tok ++ body) = tok ++ rstrip body.
Proof.
  intros [-> | ->]; cbn [append];
    rewrite strip_nonspace by reflexivity;
    now rewrite !rstrip_nonspace by reflexivity.
Qed.

Lemma scan_token (tok tok' rest : string) :
  macro_token tok -> macro_token tok' ->
  scan (tok ++ rest) = scan (tok' ++ rest).
Proof.
  intros H H'. unfold scan. now rewrite (token_app _ _ H), (token_app _ _ H').
Qed.

Lemma captures_with_token (tok body : string) (w : spacing)
      (name size npop npush fmt rest : string) :
  macro_token tok ->
  well_formed_fields w name size npop npush fmt ->
  no_word_head rest ->
  rstrip body = fields_text w name size npop npush fmt rest ->
  re_match pattern (strip (tok ++ body))
  = Some (MatchObj [name; size; npop; npush; fmt] rest).
Proof.
  intros Htok Hf Hr E.
  rewrite (strip_token _ _ Htok), E.
  change (tok ++ fields_text w name size npop npush fmt rest)
    with (shape tok w name size npop npush fmt rest).
  rewrite re_match_scan.
  apply scan_complete; [exact (conj Htok Hf) | exact Hr].
Qed.

(** C7. Each of the two spellings of the token triggers a match, and they
    are interchangeable. When the text after the token, trailing white
    space apart, is five well-formed fields and a rest that does not
    continue the last one, the line matches with [DEF] and with [def], the
    captures are these fields both times, and the iteration prints the same
    record. Whatever the text after the token is, [re.match] returns the
    same result for both spellings, so either both lines match or neither
    does, and one iteration does the same to the counter and the output. *)
Theorem C7_token_case (body : string) (st : state) :
  re_match pattern (strip ("DEF" ++ body))
  = re_match pattern (strip ("def" ++ body))
  /\ matches ("DEF" ++ body) = matches ("def" ++ body)
  /\ captures ("DEF" ++ body) = captures ("def" ++ body)
  /\ loop_body ("DEF" ++ body) st = loop_body ("def" ++ body) st
  /\ (forall w name size npop npush fmt rest,
        well_formed_fields w name size npop npush fmt ->
        no_word_head rest ->
        rstrip body = fields_text w name size npop npush fmt rest ->
        matches ("DEF" ++ body) = true
        /\ matches ("def" ++ body) = true
        /\ captures ("DEF" ++ body) = Some [name; size; npop; npush; fmt]
        /\ captures ("def" ++ body) = Some [name; size; npop; npush; fmt]
        /\ loop_body ("DEF" ++ body) st
           = Finished
               (State (S (idx st))
                  (stdout st
                   ++ [format_record (idx st) name size npop npush fmt])%list)
        /\ loop_body ("def" ++ body) st
           = Finished
               (State (S (idx st))
                  (stdout st
                   ++ [format_record (idx st) name size npop npush fmt])%list)).
Proof.
  assert (E : re_match pattern (strip ("DEF" ++ body))
              = re_match pattern (strip ("def" ++ body))).
  { rewrite (strip_token "DEF") by now left.
    rewrite (strip_token "def") by now right.
    rewrite !re_match_scan. apply scan_token; [now left | now right]. }
  split; [exact E|].
  split; [unfold matches; now rewrite E|].
  split; [unfold captures; now rewrite E|].
  split; [unfold loop_body, loop_body_on; now rewrite E|].
  intros w name size npop npush fmt rest Hf Hr Hb.
  pose proof (captures_with_token "DEF" body w name size npop npush fmt rest
                (or_introl eq_refl) Hf Hr Hb) as HD.
  pose proof (captures_with_token "def" body w name size npop npush fmt rest
                (or_intror eq_refl) Hf Hr Hb) as Hd.
  unfold matches, captures. rewrite HD, Hd. cbn [option_map groups].
  split; [reflexivity|]. split; [reflexivity|].
  split; [reflexivity|]. split; [reflexivity|].
  split; [now apply (loop_body_match _ st _ _ _ _ _ _ HD)
         | now apply (loop_body_match _ st _ _ _ _ _ _ Hd)].
Qed.

Lemma well_formed_fields_example :
  well_formed_fields (Spacing "" "" "" " " "" " " "" " " "" " ")
    "push_i32" "5" "0" "1" "i32".
Proof.
  split; [now repeat split|].
  split; [split; [discriminate | reflexivity]|].
  split; [split; [discriminate | reflexivity]|].
  split; [left; split; [discriminate | reflexivity]|].
  split; [left; split; [discriminate | reflexivity]|].
  split; [discriminate | reflexivity].
Qed.

Lemma C7_token_case_witness :
  captures "DEF(push_i32, 5, 0, 1, i32)  "
  = Some ["push_i32"; "5"; "0"; "1"; "i32"]
  /\ captures "def(push_i32, 5, 0, 1, i32)  "
     = Some ["push_i32"; "5"; "0"; "1"; "i32"]
  /\ loop_body "def(push_i32, 5, 0, 1, i32)  " initial
     = Finished (State 1 [format_record 0 "push_i32" "5" "0" "1" "i32"]).
Proof.
  destruct (proj2 (proj2 (proj2 (proj2
              (C7_token_case "(push_i32, 5, 0, 1, i32)  " initial))))
              (Spacing "" "" "" " " "" " " "" " " "" " ")
              "push_i32" "5" "0" "1" "i32" ")"
              well_formed_fields_example eq_refl eq_refl)
    as (_ & _ & HD & Hd & _ & Hl).
  split; [exact HD|]. split; [exact Hd | exact Hl].
Defined.

(** ** Fidelity of the fields *)

(** C8. The size, pop, push and format fields of a record are the texts the
    pattern captured, character for character: the trimmed line is the
    token, the captures and the white space and punctuation between them,
    and the record carries each capture behind its label. A count written
    [-0] is printed [-0]. *)
Theorem C8_field_fidelity (line : string) (st : state) (m : match_obj) :
  re_match pattern (strip line) = Some m ->
  exists tok w name size npop npush fmt r,
    strip line = shape tok w name size npop npush fmt (tail m)
    /\ groups m = [name; size; npop; npush; fmt]
    /\ r = format_record (idx st) name size npop npush fmt
    /\ loop_body line st
       = Finished (State (S (idx st)) (stdout st ++ [r])%list)
    /\ field 3 r = "size=" ++ size
    /\ field 4 r = "pop=" ++ npop
    /\ field 5 r = "push=" ++ npush
    /\ field 6 r = "fmt=" ++ fmt
    /\ output "DEF(nop, 1, -0, -0, none)"
       = [format_record 0 "nop" "1" "-0" "-0" "none"].
Proof.
  intros Hm.
  destruct (match_inv _ _ Hm)
    as (tok & w & name & size & npop & npush & fmt & Hwf & E & Hg & _).
  exists tok, w, name, size, npop, npush, fmt,
    (format_record (idx st) name size npop npush fmt).
  pose proof (record_fields (idx st) tok w name size npop npush fmt Hwf) as F.
  unfold field. rewrite F. cbn [nth].
  split; [exact E|]. split; [exact Hg|]. split; [reflexivity|].
  split; [now apply (loop_body_match line st m)|].
  repeat split.
Qed.

Lemma C8_field_fidelity_witness :
  exists r,
    output "  DEF ( nop , 1 , -0 , -0 , none_fmt ) /* no operation */"
    = [r]
    /\ field 3 r = "size=1" /\ field 4 r = "pop=-0"
    /\ field 5 r = "push=-0" /\ field 6 r = "fmt=none_fmt".
Proof.
  destruct (C8_field_fidelity
              "  DEF ( nop , 1 , -0 , -0 , none_fmt ) /* no operation */"
              initial
              (MatchObj ["nop"; "1"; "-0"; "-0"; "none_fmt"]
                        " ) /* no operation */")
              eq_refl)
    as (tok & w & name & size & npop & npush & fmt & r
        & _ & Hg & Hr & Hl & F3 & F4 & F5 & F6 & _).
  cbn [groups] in Hg. injection Hg as <- <- <- <- <-.
  exists r. split; [|now repeat split].
  rewrite Hr. reflexivity.
Defined.

(** ** Failure *)









(** ** Other spellings of the token *)

Lemma lower_three (tok : string) :
  lower tok = "def" ->
  exists a b c, tok = String a (String b (String c "")).
Proof.
  destruct tok as [|a [|b [|c [|d tok]]]]; try discriminate.
  intros _. now exists a, b, c.
Qed.

(** C10. A line whose trimmed text begins with the letters of the token in
    a mix of cases, such as [Def] or [DeF], is not a match whatever follows:
    nothing is printed and the counter stays. *)
Theorem C10_mixed_case_token (line tok body : string) (st : state) :
  mixed_case_token tok -> strip line = tok ++ body ->
  matches line = false /\ loop_body line st = Finished st.
Proof.
  intros (Hlow & Hup & Hlo) E.
  assert (Hn : re_match pattern (strip line) = None).
  { destruct (re_match pattern (strip line)) as [m|] eqn:Hm; [|reflexivity].
    destruct (match_token _ _ Hm) as (tok' & body' & Htok' & E').
    destruct (lower_three tok Hlow) as (a & b & c & ->).
    rewrite E in E'.
    destruct Htok' as [-> | ->]; cbn [append] in E';
      injection E' as -> -> -> _; [now elim Hup | now elim Hlo]. }
  split; [unfold matches; now rewrite Hn | now apply loop_body_no_match].
Qed.

Lemma C10_mixed_case_token_witness :
  loop_body "Def(push_i32, 5, 0, 1, i32)" initial = Finished initial
  /\ loop_body "  DeF(push_i32, 5, 0, 1, i32)" initial = Finished initial.
Proof.
  split.
  - apply (C10_mixed_case_token _ "Def" "(push_i32, 5, 0, 1, i32)").
    + split; [reflexivity | split; discriminate].
    + reflexivity.
  - apply (C10_mixed_case_token _ "DeF" "(push_i32, 5, 0, 1, i32)").
    + split; [reflexivity | split; discriminate].
    + reflexivity.
Defined.

(** * Further properties of the script *)

(** ** Splitting into lines *)

Lemma split_nonempty (sep : ascii) (s : string) : split sep s <> [].
Proof.
  induction s as [|c s IH]; simpl; [discriminate|].
  destruct (Ascii.eqb c sep); [discriminate|].
  destruct (split sep s); [contradiction | discriminate].
Qed.

Lemma join_cons (sep : ascii) (a : string) (ls : list string) :
  ls <> [] -> join sep (a :: ls) = a ++ String sep (join sep ls).
Proof. destruct ls; [contradiction | reflexivity]. Qed.

Lemma join_head (sep c : ascii) (h : string) (t : list string) :
  join sep (String c h :: t) = String c (join sep (h :: t)).
Proof. now destruct t. Qed.

Lemma join_split (sep : ascii) (s : string) : join sep (split sep s) = s.
Proof.
  induction s as [|c s IH]; [reflexivity|]. cbn [split].
  destruct (Ascii.eqb_spec c sep) as [->|Hc].
  - rewrite join_cons by apply split_nonempty. now rewrite IH.
  - pose proof (split_nonempty sep s) as Hne.
    destruct (split sep s) as [|h t]; [contradiction|].
    now rewrite join_head, IH.
Qed.

Lemma split_pieces (sep : ascii) (s : string) :
  Forall (fun piece => all (not_char sep) piece = true) (split sep s).
Proof.
  induction s as [|c s IH]; cbn [split]; [now repeat constructor|].
  destruct (Ascii.eqb c sep) eqn:E; [now constructor|].
  pose proof (split_nonempty sep s) as Hne.
  destruct (split sep s) as [|h t]; [contradiction|].
  inversion IH as [|? ? Hh Ht]; subst. constructor; [|exact Ht].
  cbn [all]. unfold not_char at 1. now rewrite E, Hh.
Qed.

Lemma split_length (sep : ascii) (s : string) :
  List.length (split sep s) = S (count sep s).
Proof.
  induction s as [|c s IH]; cbn [split count]; [reflexivity|].
  destruct (Ascii.eqb c sep); cbn [List.length]; [now rewrite IH|].
  pose proof (split_nonempty sep s) as Hne.
  destruct (split sep s) as [|h t]; [contradiction|].
  cbn [List.length] in *. lia.
Qed.

Lemma split_join (sep : ascii) (ls : list string) :
  ls <> [] ->
  Forall (fun piece => all (not_char sep) piece = true) ls ->
  split sep (join sep ls) = ls.
Proof.
  induction ls as [|a ls IH]; [contradiction|]. intros _ Hall.
  inversion Hall as [|? ? Ha Hls]; subst.
  destruct ls as [|b ls].
  - cbn [join]. apply split_no_sep. exact Ha.
  - rewrite join_cons by discriminate.
    rewrite split_app by exact Ha.
    now rewrite IH.
Qed.

(** X1. Splitting a text at the line feeds loses nothing: the pieces joined
    with line feeds are the text again, there is one piece more than there
    are line feeds, and no piece holds a line feed. Conversely, joining
    line-feed-free pieces and splitting gives the pieces back. *)
Theorem X1_split_round_trip (text : string) (ls : list string) :
  join newline (split newline text) = text
  /\ List.length (split newline text) = S (count newline text)
  /\ Forall (fun piece => all (not_char newline) piece = true)
       (split newline text)
  /\ (ls <> [] ->
      Forall (fun piece => all (not_char newline) piece = true) ls ->
      split newline (join newline ls) = ls).
Proof.
  split; [apply join_split|]. split; [apply split_length|].
  split; [apply split_pieces | apply split_join].
Qed.

Lemma X1_split_round_trip_witness :
  split newline (join newline ["DEF(a, 1, 0, 0, x)"; ""; "// end"])
  = ["DEF(a, 1, 0, 0, x)"; ""; "// end"].
Proof.
  apply (proj2 (proj2 (proj2 (X1_split_round_trip "" _)))).
  - discriminate.
  - repeat constructor.
Defined.

(** ** Trimming *)

Lemma lstrip_blanks (s : string) : lstrip s = blanks s.
Proof.
  unfold blanks. induction s as [|c s IH]; simpl; [reflexivity|].
  now destruct (is_space c).
Qed.

Lemma lstrip_split (s : string) : exists l, blank l /\ s = l ++ lstrip s.
Proof. rewrite lstrip_blanks. apply blanks_split. Qed.

Lemma rstrip_split (s : string) : exists r, blank r /\ s = rstrip s ++ r.
Proof.
  induction s as [|c s (r & Br & E)]; [now exists ""|]. cbn [rstrip].
  destruct (rstrip s) as [|x t] eqn:R.
  - destruct (is_space c) eqn:Hc.
    + exists (String c s). split; [|reflexivity].
      unfold blank. cbn [all]. rewrite Hc. cbn [append] in E.
      now rewrite E.
    + exists r. split; [exact Br|]. cbn [append] in *. now rewrite <- E.
  - exists r. split; [exact Br|]. cbn [append] in *. now f_equal.
Qed.

Lemma rstrip_no_space_end (s : string) : ends_with is_space (rstrip s) = false.
Proof.
  induction s as [|c s IH]; [reflexivity|]. cbn [rstrip].
  destruct (rstrip s) as [|x t] eqn:R.
  - destruct (is_space c) eqn:Hc; [reflexivity | exact Hc].
  - exact IH.
Qed.

Lemma rstrip_fixed (s : string) :
  ends_with is_space s = false -> rstrip s = s.
Proof.
  induction s as [|c s IH]; [reflexivity|]. cbn [rstrip].
  destruct s as [|x t].
  - cbn. now intros ->.
  - intros H. change (ends_with is_space (String x t) = false) in H.
    rewrite (IH H). reflexivity.
Qed.

Lemma strip_no_space_head (s : string) : no_head is_space (strip s).
Proof.
  destruct (strip s) as [|c t] eqn:E; [exact I|].
  exact (strip_head _ _ _ E).
Qed.

Lemma lstrip_fixed (s : string) : no_head is_space s -> lstrip s = s.
Proof. destruct s as [|c s]; [reflexivity|]. simpl. now intros ->. Qed.

Lemma strip_fixed (s : string) :
  no_head is_space s -> ends_with is_space s = false -> strip s = s.
Proof.
  intros Hh He. unfold strip. rewrite (lstrip_fixed _ Hh).
  now apply rstrip_fixed.
Qed.

Lemma strip_strip (s : string) : strip (strip s) = strip s.
Proof.
  apply strip_fixed; [apply strip_no_space_head|].
  unfold strip. apply rstrip_no_space_end.
Qed.

(** X2. Trimming takes white space, and nothing else, off both ends: a
    line is white space, its trimmed text, and white space again; the
    trimmed text neither starts nor ends with white space; and trimming a
    trimmed text changes nothing. *)
Theorem X2_strip_spec (line : string) :
  (exists l r, blank l /\ blank r /\ line = l ++ strip line ++ r)
  /\ no_head is_space (strip line)
  /\ ends_with is_space (strip line) = false
  /\ strip (strip line) = strip line.
Proof.
  split; [|split; [apply strip_no_space_head
                  |split; [apply rstrip_no_space_end | apply strip_strip]]].
  destruct (lstrip_split line) as (l & Bl & El).
  destruct (rstrip_split (lstrip line)) as (r & Br & Er).
  exists l, r. split; [exact Bl|]. split; [exact Br|].
  unfold strip. now rewrite <- Er.
Qed.

Lemma blank_app (a b : string) : blank a -> blank b -> blank (a ++ b).
Proof. unfold blank. intros Ha Hb. now rewrite all_app, Ha, Hb. Qed.

Lemma lstrip_blank (s : string) : blank s -> lstrip s = "".
Proof.
  unfold blank. induction s as [|c s IH]; [reflexivity|]. simpl.
  intros H. apply andb_prop in H as [Hc Hs]. rewrite Hc. now apply IH.
Qed.

Lemma lstrip_app_blank (l s : string) : blank l -> lstrip (l ++ s) = lstrip s.
Proof.
  unfold blank. induction l as [|c l IH]; [reflexivity|]. simpl.
  intros H. apply andb_prop in H as [Hc Hl]. rewrite Hc. now apply IH.
Qed.

Lemma rstrip_blank (s : string) : blank s -> rstrip s = "".
Proof.
  unfold blank. induction s as [|c s IH]; [reflexivity|]. cbn [rstrip all].
  intros H. apply andb_prop in H as [Hc Hs]. now rewrite (IH Hs), Hc.
Qed.

Lemma rstrip_app_blank (s r : string) : blank r -> rstrip (s ++ r) = rstrip s.
Proof.
  intros Br. induction s as [|c s IH]; [now apply rstrip_blank|].
  cbn [append rstrip]. now rewrite IH.
Qed.

Lemma lstrip_app (s r : string) :
  lstrip s <> "" -> lstrip (s ++ r) = lstrip s ++ r.
Proof.
  induction s as [|c s IH]; [now intros H|]. simpl.
  destruct (is_space c); [exact IH | reflexivity].
Qed.

Lemma strip_padding (l s r : string) :
  blank l -> blank r -> strip (l ++ s ++ r) = strip s.
Proof.
  intros Bl Br. unfold strip. rewrite (lstrip_app_blank _ _ Bl).
  destruct (lstrip s) as [|c t] eqn:E.
  - assert (Bs : blank s).
    { destruct (lstrip_split s) as (l' & Bl' & El'). rewrite E in El'.
      rewrite app_nil_r_s in El'. now subst l'. }
    rewrite lstrip_blank by now apply blank_app. reflexivity.
  - rewrite lstrip_app by (rewrite E; discriminate).
    rewrite E. now apply rstrip_app_blank.
Qed.

(** X3. White space around a line does not matter: with any white space
    put in front of a line and behind it (blanks, tabs, a carriage return
    left by a DOS line ending), the line is trimmed to the same text and
    the iteration does the same. *)
Theorem X3_padding_ignored (l line r : string) (st : state) :
  blank l -> blank r ->
  strip (l ++ line ++ r) = strip line
  /\ loop_body (l ++ line ++ r) st = loop_body line st
  /\ matches (l ++ line ++ r) = matches line
  /\ (forall i, record_of i (l ++ line ++ r) = record_of i line).
Proof.
  intros Bl Br. pose proof (strip_padding l line r Bl Br) as E.
  split; [exact E|].
  unfold loop_body, loop_body_on, matches, record_of, captures. rewrite E.
  repeat split.
Qed.

Lemma X3_padding_ignored_witness :
  output (String tab (" " ++ scenario_A_line ++ " " ++ String "013" ""))
  = output scenario_A_line.
Proof.
  pose proof (X3_padding_ignored (String tab " ") scenario_A_line
                (String " " (String "013" "")) initial eq_refl eq_refl)
    as (_ & H & _).
  unfold output, run.
  change (split newline
            (String tab (" " ++ scenario_A_line ++ " " ++ String "013" "")))
    with [String tab " " ++ scenario_A_line ++ String " " (String "013" "")].
  change (split newline scenario_A_line) with [scenario_A_line].
  rewrite !for_each_cons. now rewrite H.
Defined.

(** ** The counter and the output *)

(** X4. The counter counts the printed lines: when the loop starts with the
    counter equal to the number of lines printed so far, it ends that way;
    what was printed before stays at the front of the output, and the
    counter never goes down. *)
Theorem X4_counter_counts_output (lines : list string) (st : state) :
  idx st = List.length (stdout st) ->
  idx (final (for_each lines st))
  = List.length (stdout (final (for_each lines st)))
  /\ idx st <= idx (final (for_each lines st))
  /\ exists printed,
       stdout (final (for_each lines st)) = (stdout st ++ printed)%list
       /\ idx (final (for_each lines st))
          = idx st + List.length printed.
Proof.
  intros H. rewrite for_each_spec. cbn [final idx stdout].
  rewrite length_app, numbered_length.
  split; [lia|]. split; [lia|].
  eexists. split; [reflexivity|]. now rewrite numbered_length.
Qed.

Lemma X4_counter_counts_output_witness :
  idx (final (run (valid_lines 5))) = 5
  /\ List.length (output (valid_lines 5)) = 5.
Proof.
  pose proof (X4_counter_counts_output
                (split newline (valid_lines 5)) initial eq_refl)
    as (H & _).
  split; [reflexivity|]. unfold output, run. rewrite <- H. reflexivity.
Defined.

Lemma for_each_app (l1 l2 : list string) (st : state) :
  for_each (l1 ++ l2)%list st = bind (for_each l1 st) (for_each l2).
Proof.
  revert st. induction l1 as [|l l1 IH]; intros st; [reflexivity|].
  cbn [app]. rewrite !for_each_cons. destruct (loop_body l st) as [st'|e st'];
    cbn [bind]; [apply IH | reflexivity].
Qed.

Lemma split_concat (sep : ascii) (a b : string) :
  split sep (a ++ String sep b) = (split sep a ++ split sep b)%list.
Proof.
  induction a as [|c a IH]; cbn [append split].
  - now rewrite Ascii.eqb_refl.
  - rewrite IH. destruct (Ascii.eqb c sep); [reflexivity|].
    pose proof (split_nonempty sep a) as Hne.
    now destruct (split sep a).
Qed.

Lemma numbered_app (i : nat) (a b : list string) :
  numbered i (a ++ b)%list
  = (numbered i a ++ numbered (i + List.length a) b)%list.
Proof.
  revert i. induction a as [|x a IH]; intros i.
  - cbn [app List.length]. now rewrite Nat.add_0_r.
  - cbn [app]. rewrite !numbered_cons, IH. cbn [app List.length].
    now rewrite Nat.add_succ_r.
Qed.

(** X5. Texts compose: the output for a text, a line feed and a second text
    is the output for the first text followed by the records of the second
    text's matching lines, numbered on from where the first text stopped.
    In particular the output for the first text is printed unchanged,
    whatever comes after it. *)
Theorem X5_output_of_concatenation (a b : string) :
  output (a ++ String newline b)
  = (output a
     ++ numbered (List.length (output a))
          (filter matches (split newline b)))%list
  /\ for_each (split newline (a ++ String newline b)) initial
     = bind (run a) (for_each (split newline b)).
Proof.
  split.
  - rewrite !output_spec, split_concat, filter_app, numbered_app.
    now rewrite numbered_length.
  - rewrite split_concat. apply for_each_app.
Qed.

(** ** The printed records *)

Lemma word_is_not_newline (c : ascii) :
  is_word c = true -> not_char newline c = true.
Proof. by_cases_on_char c. Qed.

Lemma digit_is_not_newline (c : ascii) :
  is_digit c = true -> not_char newline c = true.
Proof. by_cases_on_char c. Qed.

Lemma upper_hex_not_newline (c : ascii) :
  is_upper_hex c = true -> not_char newline c = true.
Proof. by_cases_on_char c. Qed.

Lemma signed_integer_no_newline (s : string) :
  signed_integer s -> all (not_char newline) s = true.
Proof.
  intros [[_ H] | (d & -> & _ & H)].
  - exact (all_impl _ _ s digit_is_not_newline H).
  - cbn [all]. now rewrite (all_impl _ _ d digit_is_not_newline H).
Qed.

Lemma record_no_newline (i : nat) (tok : string) (w : spacing)
      (name size npop npush fmt : string) :
  well_formed tok w name size npop npush fmt ->
  all (not_char newline) (format_record i name size npop npush fmt) = true.
Proof.
  intros (_ & _ & [_ Hn] & [_ Hs] & Hpo & Hpu & [_ Hf]).
  unfold format_record, TAB. rewrite !all_app.
  rewrite (all_impl _ _ _ upper_hex_not_newline (format_d_upper_hex i)).
  rewrite (all_impl _ _ _ upper_hex_not_newline (format_02X_upper_hex i)).
  rewrite (all_impl _ _ _ word_is_not_newline Hn).
  rewrite (all_impl _ _ _ digit_is_not_newline Hs).
  rewrite (signed_integer_no_newline _ Hpo).
  rewrite (signed_integer_no_newline _ Hpu).
  rewrite (all_impl _ _ _ word_is_not_newline Hf).
  reflexivity.
Qed.

Lemma output_record (text r : string) :
  In r (output text) ->
  exists i l, matches l = true /\ r = record_of i l.
Proof.
  intros H. apply In_nth_error in H as [i Hi].
  destruct (nth_output _ _ _ Hi) as (l & Hl & ->). now exists i, l.
Qed.

(** X6. Every printed record is one line of seven tab-separated fields: it
    holds exactly six tabs and no line feed, whatever the input line was. *)
Theorem X6_record_is_one_line (text r : string) :
  In r (output text) ->
  List.length (split tab r) = 7
  /\ count tab r = 6
  /\ all (not_char newline) r = true
  /\ split newline r = [r].
Proof.
  intros H. destruct (output_record _ _ H) as (i & l & Hl & ->).
  destruct (record_of_match i l Hl)
    as (tok & w & name & size & npop & npush & fmt & rest
        & Hwf & _ & _ & Hr & F).
  assert (L : List.length (split tab (record_of i l)) = 7)
    by now rewrite F.
  assert (N : all (not_char newline) (record_of i l) = true)
    by (rewrite Hr; now apply (record_no_newline i tok w)).
  split; [exact L|]. split; [rewrite split_length in L; lia|].
  split; [exact N | now apply split_no_sep].
Qed.

Lemma X6_record_is_one_line_witness :
  In (format_record 0 "op0" "1" "0" "1" "f0") (output (valid_lines 4))
  /\ count tab (format_record 0 "op0" "1" "0" "1" "f0") = 6.
Proof.
  assert (H : In (format_record 0 "op0" "1" "0" "1" "f0")
                (output (valid_lines 4)))
    by (vm_compute; left; reflexivity).
  split; [exact H|].
  exact (proj1 (proj2 (X6_record_is_one_line _ _ H))).
Defined.

Lemma NoDup_map_Some (l : list nat) : NoDup l -> NoDup (map Some l).
Proof.
  induction 1 as [|x l Hx Hl IH]; cbn [map]; constructor; [|exact IH].
  intros Hin. apply in_map_iff in Hin as (y & [= ->] & Hy). contradiction.
Qed.

(** X7. No record is printed twice: the lines of the output are pairwise
    different, because their first fields are. *)
Theorem X7_records_distinct (text : string) : NoDup (output text).
Proof.
  apply (NoDup_map_inv (fun r => of_base 10 (field 0 r))).
  rewrite output_spec, index_fields by apply filter_matches.
  apply NoDup_map_Some, seq_NoDup.
Qed.

(** ** One parse *)

Lemma captures_of_shape (line tok : string) (w : spacing)
      (name size npop npush fmt rest : string) :
  well_formed tok w name size npop npush fmt ->
  no_word_head rest ->
  strip line = shape tok w name size npop npush fmt rest ->
  re_match pattern (strip line)
  = Some (MatchObj [name; size; npop; npush; fmt] rest).
Proof.
  intros Hwf Hr ->. rewrite re_match_scan. now apply scan_complete.
Qed.

(** X8. The pattern reads a line in one way only. When the trimmed line is
    a token, five well-formed fields with white space and commas between
    them, and a rest that does not continue the last field, these five
    fields are what is captured and printed; so two such readings of one
    line have the same fields and the same rest. *)
Theorem X8_unique_parse (line tok tok' : string) (w w' : spacing)
        (name size npop npush fmt rest : string)
        (name' size' npop' npush' fmt' rest' : string) (st : state) :
  well_formed tok w name size npop npush fmt ->
  no_word_head rest ->
  strip line = shape tok w name size npop npush fmt rest ->
  captures line = Some [name; size; npop; npush; fmt]
  /\ loop_body line st
     = Finished
         (State (S (idx st))
            (stdout st
             ++ [format_record (idx st) name size npop npush fmt])%list)
  /\ (well_formed tok' w' name' size' npop' npush' fmt' ->
      no_word_head rest' ->
      strip line = shape tok' w' name' size' npop' npush' fmt' rest' ->
      name = name' /\ size = size' /\ npop = npop' /\ npush = npush'
      /\ fmt = fmt' /\ rest = rest').
Proof.
  intros Hwf Hr E.
  pose proof (captures_of_shape _ _ _ _ _ _ _ _ _ Hwf Hr E) as Hm.
  split; [unfold captures; now rewrite Hm|].
  split; [now apply (loop_body_match line st _ _ _ _ _ _ Hm)|].
  intros Hwf' Hr' E'.
  pose proof (captures_of_shape _ _ _ _ _ _ _ _ _ Hwf' Hr' E') as Hm'.
  rewrite Hm in Hm'. injection Hm' as -> -> -> -> -> ->.
  now repeat split.
Qed.

Lemma well_formed_example :
  well_formed "def" (Spacing "" "" "" " " "" " " "" " " "" " ")
    "bar" "2" "-1" "1" "none".
Proof.
  split; [now right|]. split; [now repeat split|].
  split; [split; [discriminate | reflexivity]|].
  split; [split; [discriminate | reflexivity]|].
  split; [right; exists "1"; split;
          [reflexivity | split; [discriminate | reflexivity]]|].
  split; [left; split; [discriminate | reflexivity]|].
  split; [discriminate | reflexivity].
Qed.

Lemma X8_unique_parse_witness :
  captures "def(bar, 2, -1, 1, none)"
  = Some ["bar"; "2"; "-1"; "1"; "none"].
Proof.
  exact (proj1 (X8_unique_parse "def(bar, 2, -1, 1, none)" "def" ""
                  (Spacing "" "" "" " " "" " " "" " " "" " ")
                  (Spacing "" "" "" "" "" "" "" "" "" "")
                  "bar" "2" "-1" "1" "none" ")" "" "" "" "" "" "" initial
                  well_formed_example eq_refl eq_refl)).
Defined.

Lemma of_base_inj (b : nat) (s s' : string) (n n' : nat) :
  of_base b s = Some n -> of_base b s' = Some n' -> s = s' -> n = n'.
Proof. intros H H' <-. rewrite H in H'. now injection H'. Qed.

(** X9. A record tells everything that went into it: two records printed
    for well-formed captures are equal only if the counter and all five
    captures are equal. *)
Theorem X9_record_injective (i i' : nat) (tok tok' : string) (w w' : spacing)
        (name size npop npush fmt name' size' npop' npush' fmt' : string) :
  well_formed tok w name size npop npush fmt ->
  well_formed tok' w' name' size' npop' npush' fmt' ->
  format_record i name size npop npush fmt
  = format_record i' name' size' npop' npush' fmt' ->
  i = i' /\ name = name' /\ size = size' /\ npop = npop'
  /\ npush = npush' /\ fmt = fmt'.
Proof.
  intros Hwf Hwf' E.
  pose proof (record_fields i tok w _ _ _ _ _ Hwf) as F.
  pose proof (record_fields i' tok' w' _ _ _ _ _ Hwf') as F'.
  rewrite E, F' in F.
  injection F as Hi _ Hn Hs Hpo Hpu Hf.
  split; [|subst; now repeat split].
  exact (of_base_inj 10 _ _ _ _ (format_d_value i) (format_d_value i')
           (eq_sym Hi)).
Qed.

Lemma X9_record_injective_witness :
  format_record 3 "bar" "2" "-1" "1" "none"
  = format_record 3 "bar" "2" "-1" "1" "none"
  /\ 3 = 3 /\ "bar" = "bar" /\ "2" = "2" /\ "-1" = "-1" /\ "1" = "1"
  /\ "none" = "none".
Proof.
  split; [reflexivity|].
  exact (X9_record_injective 3 3 "def" "def" _ _ _ _ _ _ _ _ _ _ _ _
           well_formed_example well_formed_example eq_refl).
Defined.

(** X10. There are never more records than lines: the number of printed
    records, which is the final counter, is at most the number of line
    feeds in the text plus one, and it is the number of lines whose trimmed
    text is in the grammar. *)
Theorem X10_output_bound (text : string) :
  List.length (output text) <= S (count newline text)
  /\ idx (final (run text)) = List.length (output text)
  /\ List.length (output text)
     = List.length (filter matches (split newline text)).
Proof.
  rewrite output_spec, run_spec, numbered_length. cbn [final idx].
  split; [|now split].
  rewrite <- split_length. apply filter_length_le.
Qed.

(** ** The two renderings of the counter *)







